(** * Streaming speech adapters of bolna: a shallow embedding

    Two adapters are embedded here, each from its source file:

    - [Elevenlabs]: [bolna/synthesizer/elevenlabs_synthesizer.py], the
      text-to-speech adapter (class [ElevenlabsSynthesizer]);
    - [Azure]: [bolna/transcriber/azure_transcriber.py], the audio-ingestion
      adapter (class [AzureTranscriber]).

    Python objects that are shared and mutated in place (the metadata
    dictionaries) live in an explicit store, [Py.heap]; a reference is a
    location of that store.  Coroutines are cut at their suspension points
    ([await], [yield]): one transition of the model is the code that runs
    between two of them, and a run is a list of labels chosen by the
    scheduler, the transport and the caller. *)

From stdpp Require Import base functions gmap list strings.
From Stdlib Require Import ZArith Lia.
From Stdlib Require Import Strings.Byte.

(* ===================================================================== *)
(** * Python values, dictionaries, references                             *)
(* ===================================================================== *)

Module Py.

Definition bytes := list byte.

#[global] Instance byte_eq_decision : EqDecision byte := byte_eq_dec.

(** The values the adapters store under metadata keys. *)
Inductive value :=
| VNone
| VBool (b : bool)
| VInt (z : Z)
| VStr (s : string)
| VBytes (b : bytes).

(** Python truthiness, as used by [if x:] and by [a and b]. *)
Definition truthy (v : value) : bool :=
  match v with
  | VNone => false
  | VBool b => b
  | VInt z => negb (z =? 0)%Z
  | VStr s => negb (String.eqb s "")
  | VBytes b => match b with [] => false | _ => true end
  end.

(** [v is True]: identity with the singleton [True]. *)
Definition is_True (v : value) : bool :=
  match v with VBool true => true | _ => false end.

Abbreviation dict := (gmap string value).

(** A reference to a dictionary object. *)
Abbreviation loc := nat.

(** The store of dictionary objects.  Every reference denotes an object
    (Python has no dangling reference), so the store is a total function. *)
Definition heap := loc → dict.

Definition empty_heap : heap := λ _, ∅.

(** [d[k] = v] on the object at [l]. *)
Definition setitem (l : loc) (k : string) (v : value) (h : heap) : heap :=
  <[l := <[k := v]> (h l)]> h.

(** [k in d and d[k]], reduced to its truth value. *)
Definition has_truthy (d : dict) (k : string) : bool :=
  match d !! k with Some v => truthy v | None => false end.

(** [k in d and d[k] is True]. *)
Definition has_True (d : dict) (k : string) : bool :=
  match d !! k with Some v => is_True v | None => false end.

(** The exceptions that the embedded code can meet. *)
Inductive exn :=
| IndexError          (* pop from an empty deque *)
| TypeError           (* subscripting or iterating None *)
| AttributeError      (* method call on None *)
| ConnectionClosed    (* send or recv on a closed websocket *)
| CollaboratorError.  (* raised inside an external helper *)

(** [str] or [None]. *)
Definition of_text (t : option string) : value :=
  match t with Some s => VStr s | None => VNone end.

End Py.

(* ===================================================================== *)
(** * ElevenlabsSynthesizer                                               *)
(* ===================================================================== *)

Module Elevenlabs.
Import Py.

(** ** External collaborators

    [text_chunker] (inherited from [BaseSynthesizer]), [base64.b64decode],
    [convert_audio_to_wav] and [resample] are not part of the file; they are
    taken as parameters.  [None] stands for "the call raises". *)
Class Collaborators := {
  text_chunker : option string → list string;
  b64decode : string → option bytes;
  convert_audio_to_wav : bytes → option bytes;
  resample : bytes → Z → bool → option bytes;
}.

(** ** Data *)

(** Identity of one websocket connection object. *)
Abbreviation ws := nat.

(** Identity of one task created by [asyncio.create_task]. *)
Abbreviation tid := nat.

(** The JSON messages written to the websocket. *)
Inductive frame :=
| FBos                    (* {"text": " ", "voice_settings": ..., "xi_api_key": ...} *)
| FText (chunk : string)  (* {"text": chunk} *)
| FFlush.                 (* {"text": "", "flush": true} *)

(** Where a [sender] coroutine is suspended. *)
Inductive sender_pc :=
| SNew                        (* created, body not entered yet *)
| SWait                       (* in [asyncio.sleep(1)] of the wait loop *)
| SLoop (rest : list string)  (* after a successful [send]; [rest] is still to send *)
| SDone.                      (* returned *)

Record task := Task {
  t_text : option string;
  t_eos : bool;
  t_pc : sender_pc;
}.

(** What [create_ws_data_packet(audio, meta_info)] is given: the payload,
    the metadata object, and what that object holds at this moment. *)
Record packet := Packet {
  p_data : bytes;
  p_ref : loc;
  p_meta : dict;
}.

(** Where [generate] is suspended. *)
Inductive gen_pc :=
| GIdle                                          (* [receiver] awaits the transport *)
| GYield1 (message : bytes) (pending_final : bool)  (* at the [yield] of line 141 *)
| GYield2 (pending_final : bool)                  (* at the [yield] of line 154 *)
| GDone (why : option exn)                        (* [generate] returned *)
| GCancelled.                  (* a [CancelledError] left [generate]: line 118 *)

(** Observable history, in program order. *)
Inductive event :=
| Spawned (u : tid)
| Enqueued (u : tid) (l : loc)
| Sent (u : option tid) (w : ws) (f : frame).

Record state := State {
  (* configuration, fixed by [__init__] *)
  use_mulaw : bool;
  sampling_rate : Z;
  (* attributes of the object *)
  first_chunk_generated : bool;
  last_text_sent : bool;
  text_queue : list loc;
  meta_info : option loc;
  synthesized_characters : Z;
  websocket : option ws;            (* websocket_holder["websocket"] *)
  sender_task : option tid;
  (* the world around the object *)
  heap : Py.heap;
  next_loc : loc;
  closed : list ws;                 (* connections whose [.closed] is true *)
  tasks : list task;
  log : list event;
  gen : gen_pc;
  emitted : list packet;            (* what [generate] has yielded so far *)
}.

(** [__init__]: [self.stream] is forced to [True] (line 28) and never
    assigned again, so [push] always takes its first branch. *)
Definition init (mulaw : bool) (rate : Z) : state :=
  {| use_mulaw := mulaw; sampling_rate := rate;
     first_chunk_generated := false; last_text_sent := false;
     text_queue := []; meta_info := None; synthesized_characters := 0;
     websocket := None; sender_task := None;
     heap := empty_heap; next_loc := 0; closed := []; tasks := [];
     log := []; gen := GIdle; emitted := [] |}.

Definition set_first_chunk_generated (v : bool) (s : state) : state :=
  State (use_mulaw s) (sampling_rate s) v (last_text_sent s) (text_queue s)
    (meta_info s) (synthesized_characters s) (websocket s) (sender_task s)
    (heap s) (next_loc s) (closed s) (tasks s) (log s) (gen s) (emitted s).

Definition set_last_text_sent (v : bool) (s : state) : state :=
  State (use_mulaw s) (sampling_rate s) (first_chunk_generated s) v
    (text_queue s) (meta_info s) (synthesized_characters s) (websocket s)
    (sender_task s) (heap s) (next_loc s) (closed s) (tasks s) (log s)
    (gen s) (emitted s).

Definition set_text_queue (v : list loc) (s : state) : state :=
  State (use_mulaw s) (sampling_rate s) (first_chunk_generated s)
    (last_text_sent s) v (meta_info s) (synthesized_characters s)
    (websocket s) (sender_task s) (heap s) (next_loc s) (closed s) (tasks s)
    (log s) (gen s) (emitted s).

Definition set_meta_info (v : option loc) (s : state) : state :=
  State (use_mulaw s) (sampling_rate s) (first_chunk_generated s)
    (last_text_sent s) (text_queue s) v (synthesized_characters s)
    (websocket s) (sender_task s) (heap s) (next_loc s) (closed s) (tasks s)
    (log s) (gen s) (emitted s).

Definition set_synthesized_characters (v : Z) (s : state) : state :=
  State (use_mulaw s) (sampling_rate s) (first_chunk_generated s)
    (last_text_sent s) (text_queue s) (meta_info s) v (websocket s)
    (sender_task s) (heap s) (next_loc s) (closed s) (tasks s) (log s)
    (gen s) (emitted s).

Definition set_websocket (v : option ws) (s : state) : state :=
  State (use_mulaw s) (sampling_rate s) (first_chunk_generated s)
    (last_text_sent s) (text_queue s) (meta_info s)
    (synthesized_characters s) v (sender_task s) (heap s) (next_loc s)
    (closed s) (tasks s) (log s) (gen s) (emitted s).

Definition set_sender_task (v : option tid) (s : state) : state :=
  State (use_mulaw s) (sampling_rate s) (first_chunk_generated s)
    (last_text_sent s) (text_queue s) (meta_info s)
    (synthesized_characters s) (websocket s) v (heap s) (next_loc s)
    (closed s) (tasks s) (log s) (gen s) (emitted s).

Definition set_heap (v : Py.heap) (s : state) : state :=
  State (use_mulaw s) (sampling_rate s) (first_chunk_generated s)
    (last_text_sent s) (text_queue s) (meta_info s)
    (synthesized_characters s) (websocket s) (sender_task s) v (next_loc s)
    (closed s) (tasks s) (log s) (gen s) (emitted s).

Definition set_next_loc (v : loc) (s : state) : state :=
  State (use_mulaw s) (sampling_rate s) (first_chunk_generated s)
    (last_text_sent s) (text_queue s) (meta_info s)
    (synthesized_characters s) (websocket s) (sender_task s) (heap s) v
    (closed s) (tasks s) (log s) (gen s) (emitted s).

Definition set_closed (v : list ws) (s : state) : state :=
  State (use_mulaw s) (sampling_rate s) (first_chunk_generated s)
    (last_text_sent s) (text_queue s) (meta_info s)
    (synthesized_characters s) (websocket s) (sender_task s) (heap s)
    (next_loc s) v (tasks s) (log s) (gen s) (emitted s).

Definition set_tasks (v : list task) (s : state) : state :=
  State (use_mulaw s) (sampling_rate s) (first_chunk_generated s)
    (last_text_sent s) (text_queue s) (meta_info s)
    (synthesized_characters s) (websocket s) (sender_task s) (heap s)
    (next_loc s) (closed s) v (log s) (gen s) (emitted s).

Definition set_log (v : list event) (s : state) : state :=
  State (use_mulaw s) (sampling_rate s) (first_chunk_generated s)
    (last_text_sent s) (text_queue s) (meta_info s)
    (synthesized_characters s) (websocket s) (sender_task s) (heap s)
    (next_loc s) (closed s) (tasks s) v (gen s) (emitted s).

Definition set_gen (v : gen_pc) (s : state) : state :=
  State (use_mulaw s) (sampling_rate s) (first_chunk_generated s)
    (last_text_sent s) (text_queue s) (meta_info s)
    (synthesized_characters s) (websocket s) (sender_task s) (heap s)
    (next_loc s) (closed s) (tasks s) (log s) v (emitted s).

Definition set_emitted (v : list packet) (s : state) : state :=
  State (use_mulaw s) (sampling_rate s) (first_chunk_generated s)
    (last_text_sent s) (text_queue s) (meta_info s)
    (synthesized_characters s) (websocket s) (sender_task s) (heap s)
    (next_loc s) (closed s) (tasks s) (log s) (gen s) v.

Definition record (e : event) (s : state) : state :=
  set_log (log s ++ [e]) s.

(** ** The connection *)

Definition is_closed (w : ws) (s : state) : bool :=
  bool_decide (w ∈ closed s).

(** The negation of
    [self.websocket_holder["websocket"] is None or ....closed]. *)
Definition connected (s : state) : bool :=
  match websocket s with
  | None => false
  | Some w => negb (is_closed w s)
  end.

(** [await self.websocket_holder["websocket"].send(json.dumps(f))] issued by
    task [u].  The holder is read when the call is made; [ok] is what the
    transport answers on an open connection. *)
Definition ws_send (u : option tid) (f : frame) (ok : bool) (s : state)
  : exn + state :=
  match websocket s with
  | None => inl AttributeError
  | Some w =>
      if is_closed w s then inl ConnectionClosed
      else if ok then inr (record (Sent u w f) s)
      else inl ConnectionClosed
  end.

(** [establish_connection]: [conn] is what [websockets.connect] followed by
    the greeting message produced; any failure is reported as [None]. *)
Definition establish_connection (conn : option ws) (s : state)
  : option ws * state :=
  match conn with
  | Some w => (Some w, record (Sent None w FBos) s)
  | None => (None, s)
  end.

(** One iteration of the loop of [monitor_connection], lines 185-187.  When
    the connection is live the iteration has no suspension point before its
    [sleep]; the reconnect, which has one, is taken as a single transition. *)
Definition monitor_connection (conn : option ws) (s : state) : state :=
  if connected s then s
  else
    let '(h, s') := establish_connection conn s in
    set_websocket h s'.

(** ** Results of a piece of code *)

Inductive outcome :=
| Return (s : state)               (* ran to its end *)
| Yield (p : packet) (s : state)   (* suspended at a [yield] *)
| Raise (e : exn) (s : state).     (* an exception left the piece *)

Definition state_of (o : outcome) : state :=
  match o with Return s | Yield _ s | Raise _ s => s end.

(** ** The Submission Path: [push] and [sender] *)

Section WithCollaborators.
Context {C : Collaborators}.

Definition set_task_pc (u : tid) (pc : sender_pc) (s : state) : state :=
  set_tasks (alter (λ t, Task (t_text t) (t_eos t) pc) u (tasks s)) s.

(** [len(text) if text is not None else 0] *)
Definition text_len (text : option string) : Z :=
  match text with
  | Some t => Z.of_nat (String.length t)
  | None => 0
  end.

(** [push(message)], lines 193-203, with [meta] and [text] what
    [message.get] returned.  There is no [await] in it: the task created on
    line 202 starts running only after [push] has returned. *)
Definition push (meta : option loc) (text : option string) (s : state)
  : outcome :=
  let s1 :=
    set_synthesized_characters (synthesized_characters s + text_len text) s in
  match meta with
  | None => Raise TypeError s1                       (* ["..." in None] *)
  | Some m =>
      let end_of_llm_stream := has_truthy (heap s1 m) "end_of_llm_stream" in
      (* self.meta_info = copy.deepcopy(meta_info) *)
      let c := next_loc s1 in
      let s2 := set_next_loc (S c) (set_heap (<[c := heap s1 m]> (heap s1)) s1) in
      let s3 := set_meta_info (Some c) s2 in
      (* meta_info["text"] = text *)
      let s4 := set_heap (setitem m "text" (of_text text) (heap s3)) s3 in
      (* self.sender_task = asyncio.create_task(self.sender(...)) *)
      let u := length (tasks s4) in
      let s5 :=
        record (Spawned u)
          (set_sender_task (Some u)
             (set_tasks (tasks s4 ++ [Task text end_of_llm_stream SNew]) s4)) in
      (* self.text_queue.append(meta_info) *)
      Return (record (Enqueued u m) (set_text_queue (text_queue s5 ++ [m]) s5))
  end.

(** Lines 75-83 of [sender]: mark the last text, send the flush message,
    return.  A failure of this send is logged and swallowed. *)
Definition sender_flush (u : tid) (eos ok : bool) (s : state) : state :=
  let s1 := if eos then set_last_text_sent true s else s in
  let s2 :=
    match ws_send (Some u) FFlush ok s1 with
    | inr s' => s'
    | inl _ => s1
    end in
  set_task_pc u SDone s2.

(** Lines 67-73 of [sender]: the next turn of the [for] loop.  A failed
    send of a chunk makes [sender] return at once (line 73). *)
Definition sender_loop (u : tid) (eos : bool) (rest : list string) (ok : bool)
    (s : state) : state :=
  match rest with
  | chunk :: rest' =>
      match ws_send (Some u) (FText chunk) ok s with
      | inr s' => set_task_pc u (SLoop rest') s'
      | inl _ => set_task_pc u SDone s
      end
  | [] => sender_flush u eos ok s
  end.

(** [text != ""] *)
Definition text_nonempty (text : option string) : bool :=
  match text with
  | Some t => negb (String.eqb t "")
  | None => true
  end.

(** Lines 62-66 of [sender]: the wait loop, then the text. *)
Definition sender_enter (u : tid) (t : task) (ok : bool) (s : state) : state :=
  if connected s then
    if text_nonempty (t_text t)
    then sender_loop u (t_eos t) (text_chunker (t_text t)) ok s
    else sender_flush u (t_eos t) ok s
  else set_task_pc u SWait s.

(** The scheduler runs task [u] from its suspension point to the next one;
    [ok] is the answer of the transport to the [send] made on the way. *)
Definition sender_step (u : tid) (ok : bool) (s : state) : state :=
  match tasks s !! u with
  | None => s
  | Some t =>
      match t_pc t with
      | SNew | SWait => sender_enter u t ok s
      | SLoop rest => sender_loop u (t_eos t) rest ok s
      | SDone => s
      end
  end.

(** [sender] run by the scheduler once per answer of the transport. *)
Fixpoint sender_run (u : tid) (oks : list bool) (s : state) : state :=
  match oks with
  | [] => s
  | ok :: oks' => sender_run u oks' (sender_step u ok s)
  end.

(** [task.done()] *)
Definition task_done (u : tid) (s : state) : bool :=
  match tasks s !! u with
  | Some t => match t_pc t with SDone => true | _ => false end
  | None => true
  end.

(** [task.cancel()] followed by [await task]: [CancelledError] is raised at
    the suspension point of [sender] and caught on line 85. *)
Definition cancel_task (u : tid) (s : state) : state :=
  set_task_pc u SDone s.

(** [await websocket.close()]; closing a closed connection does nothing. *)
Definition ws_close (w : ws) (s : state) : state :=
  if is_closed w s then s else set_closed (w :: closed s) s.

(** [cleanup], lines 207-219, taken as a single transition: nothing else runs
    while it awaits the cancelled task and the closing of the connection. *)
Definition cleanup (s : state) : state :=
  let s1 :=
    match sender_task s with
    | Some u => if task_done u s then s else cancel_task u s
    | None => s
    end in
  let s2 :=
    match websocket s1 with
    | Some w => ws_close w s1
    | None => s1
    end in
  set_websocket None s2.

(** ** The Result Path: [receiver] and [generate] *)

(** What the await inside the [try] of [receiver] brings: the sleep of
    line 95 when there is no connection, the [recv] of line 98 otherwise. *)
Inductive rx :=
| RxCancelled                                  (* [CancelledError] at that await *)
| RxRaises                                     (* [recv] or [json.loads] raises *)
| RxJson (audio : option string) (isFinal : bool).
    (* a JSON object; [audio] is [None] when the key is absent or null,
       [isFinal] is the truth of ["isFinal" in data and data["isFinal"]] *)

(** How one iteration of the loop of [receiver] goes on. *)
Inductive rstep :=
| RBreak                                   (* lines 113-115 *)
| RWait                                    (* lines 94-96: sleep, [continue] *)
| RError                                   (* lines 116-118: handler, sleep *)
| RNoAudio                                 (* line 111, then loop *)
| RChunk (chunk : bytes) (final : bool).   (* line 106 *)

(** Lines 91-118, up to the first [yield] or to the sleep that ends the
    iteration. *)
Definition receiver (o : rx) (s : state) : rstep :=
  if connected s then
    match o with
    | RxCancelled => RBreak
    | RxRaises => RError
    | RxJson None _ => RNoAudio
    | RxJson (Some a) isFinal =>
        if String.eqb a "" then RNoAudio
        else
          match b64decode a with
          | Some chunk => RChunk chunk isFinal
          | None => RError
          end
    end
  else
    match o with
    | RxCancelled => RBreak
    | _ => RWait
    end.


(** [b'\x00'] *)
Definition sentinel : bytes := [x00].

(** [deque.popleft()] *)
Definition popleft (q : list loc) : exn + (loc * list loc) :=
  match q with
  | [] => inl IndexError
  | m :: q' => inr (m, q')
  end.

(** Lines 129-130. *)
Definition dequeue (s : state) : exn + state :=
  if bool_decide (0 < length (text_queue s)) then
    match popleft (text_queue s) with
    | inl e => inl e
    | inr (m, q') => inr (set_meta_info (Some m) (set_text_queue q' s))
    end
  else inr s.

(** [self.meta_info[k] = v] *)
Definition meta_setitem (k : string) (v : value) (s : state) : exn + state :=
  match meta_info s with
  | None => inl TypeError
  | Some l => inr (set_heap (setitem l k v (heap s)) s)
  end.

(** [create_ws_data_packet(audio, self.meta_info)] on an active record. *)
Definition create_ws_data_packet (audio : bytes) (l : loc) (s : state) : packet :=
  Packet audio l (heap s l).

(** Lines 129-141: from the arrival of [message] to the first [yield]. *)
Definition generate_head (message : bytes) (s : state) : outcome :=
  match dequeue s with
  | inl e => Raise e s
  | inr s1 =>
      if use_mulaw s1 then
        match meta_setitem "format" (VStr "mulaw") s1 with
        | inl e => Raise e s1
        | inr s2 =>
            match meta_info s2 with
            | Some l => Yield (create_ws_data_packet message l s2) s2
            | None => Raise TypeError s2
            end
        end
      else
        match meta_setitem "format" (VStr "wav") s1 with
        | inl e => Raise e s1
        | inr s2 =>
            match convert_audio_to_wav message with
            | None => Raise CollaboratorError s2
            | Some wav =>
                match resample wav (sampling_rate s2) true with
                | None => Raise CollaboratorError s2
                | Some audio =>
                    match meta_info s2 with
                    | Some l => Yield (create_ws_data_packet audio l s2) s2
                    | None => Raise TypeError s2
                    end
                end
            end
        end
  end.

(** Lines 142-144. *)
Definition mark_first_chunk (s : state) : exn + state :=
  if first_chunk_generated s then inr s
  else
    match meta_setitem "is_first_chunk" (VBool true) s with
    | inl e => inl e
    | inr s' => inr (set_first_chunk_generated true s')
    end.

(** Lines 146-149. *)
Definition reset_on_last_text (s : state) : state :=
  if last_text_sent s
  then set_last_text_sent true (set_first_chunk_generated false s)
  else s.

(** Lines 142-154: from the first [yield] to the second one, or to the end
    of the loop body. *)
Definition generate_tail (message : bytes) (s : state) : outcome :=
  match mark_first_chunk s with
  | inl e => Raise e s
  | inr s1 =>
      let s2 := reset_on_last_text s1 in
      if bool_decide (message = sentinel) then
        match meta_setitem "end_of_synthesizer_stream" (VBool true) s2 with
        | inl e => Raise e s2
        | inr s3 =>
            match resample message (sampling_rate s3) false with
            | None => Raise CollaboratorError s3
            | Some audio =>
                match meta_info s3 with
                | Some l => Yield (create_ws_data_packet audio l s3) s3
                | None => Raise TypeError s3
                end
            end
        end
      else Return s2
  end.

(** Line 155. *)
Definition generate_after_sentinel (s : state) : state :=
  set_first_chunk_generated false s.

Definition emit (p : packet) (s : state) : state :=
  set_emitted (emitted s ++ [p]) s.

(** [receiver] hands [message] to the body of the loop of [generate].  An
    exception in the body is caught on line 157, outside the loop:
    [generate] returns. *)
Definition deliver (message : bytes) (pending_final : bool) (s : state) : state :=
  match generate_head message s with
  | Yield p s' => set_gen (GYield1 message pending_final) (emit p s')
  | Raise e s' => set_gen (GDone (Some e)) s'
  | Return s' => set_gen GIdle s'
  end.

(** The body of the loop is over: [receiver] resumes after its [yield]. *)
Definition body_done (pending_final : bool) (s : state) : state :=
  if pending_final then deliver sentinel false s      (* line 109 *)
  else set_gen GIdle s.

(** The await of [receiver] is answered; a sleep that follows runs to its
    end.  After [break] the [async for] of [generate] is exhausted and
    [generate] returns. *)
Definition on_recv (o : rx) (s : state) : state :=
  match gen s with
  | GIdle =>
      match receiver o s with
      | RBreak => set_gen (GDone None) s
      | RWait | RError | RNoAudio => s
      | RChunk chunk final => deliver chunk final s
      end
  | _ => s
  end.

(** The same, with the task cancelled while [receiver] sleeps in its handler.
    The sleep of line 118 is inside the [except Exception] clause, so the
    [CancelledError] raised there is not caught on line 113; it is no
    [Exception] either, so line 157 does not catch it: it leaves [receiver]
    and [generate].  (A cancellation at the awaits of lines 95 and 98 is
    [RxCancelled].) *)
Definition on_recv_cancelled (o : rx) (s : state) : state :=
  match gen s with
  | GIdle =>
      match receiver o s with
      | RError => set_gen GCancelled s
      | _ => on_recv o s
      end
  | _ => s
  end.

(** The consumer asks [generate] for its next item. *)
Definition on_next (s : state) : state :=
  match gen s with
  | GYield1 message pending =>
      match generate_tail message s with
      | Yield p s' => set_gen (GYield2 pending) (emit p s')
      | Raise e s' => set_gen (GDone (Some e)) s'
      | Return s' => body_done pending s'
      end
  | GYield2 pending => body_done pending (generate_after_sentinel s)
  | _ => s
  end.

(** ** Runs *)

Inductive label :=
| LNewDict (d : dict)                          (* the caller builds a metadata dict *)
| LPush (meta : option loc) (text : option string)
| LSender (u : tid) (ok : bool)
| LRecv (o : rx)
| LNext
| LMonitor (conn : option ws)
| LDrop (w : ws)                               (* the peer closes connection [w] *)
| LCleanup
| LRecvCancelled (o : rx).     (* [LRecv o], cancelled in the sleep of line 118 *)

Definition new_dict (d : dict) (s : state) : state :=
  set_next_loc (S (next_loc s)) (set_heap (<[next_loc s := d]> (heap s)) s).

(** A reference handed to [push] denotes a dictionary that exists. *)
Definition allocated (meta : option loc) (s : state) : bool :=
  match meta with
  | Some m => bool_decide (m < next_loc s)
  | None => true
  end.

Definition step (l : label) (s : state) : state :=
  match l with
  | LNewDict d => new_dict d s
  | LPush meta text => if allocated meta s then state_of (push meta text s) else s
  | LSender u ok => sender_step u ok s
  | LRecv o => on_recv o s
  | LNext => on_next s
  | LMonitor conn => monitor_connection conn s
  | LDrop w => ws_close w s
  | LCleanup => cleanup s
  | LRecvCancelled o => on_recv_cancelled o s
  end.

Definition run (ls : list label) (s : state) : state :=
  foldl (λ s l, step l s) s ls.

(** ** Reading the history *)

Definition is_enqueue_of (u : tid) (e : event) : bool :=
  match e with
  | Enqueued u' _ => bool_decide (u' = u)
  | _ => false
  end.

(** How many times the record of unit [u] was appended to the queue. *)
Fixpoint enqueue_count (u : tid) (lg : list event) : nat :=
  match lg with
  | [] => 0
  | e :: lg' => (if is_enqueue_of u e then 1 else 0) + enqueue_count u lg'
  end.

(** Every message that the [sender] of a unit wrote to the connection comes
    after the record of that unit was appended to the queue. *)
Definition sent_after_enqueue (lg : list event) : Prop :=
  ∀ i u w f, lg !! i = Some (Sent (Some u) w f) →
    ∃ j l, j < i ∧ lg !! j = Some (Enqueued u l).

(** The chunks that [sender] sends for [text]. *)
Definition chunks_of (text : option string) : list string :=
  if text_nonempty text then text_chunker text else [].

End WithCollaborators.

End Elevenlabs.

(* ===================================================================== *)
(** * AzureTranscriber                                                    *)
(* ===================================================================== *)

Module Azure.
Import Py.

(** ** Data *)

(** An item of the input queue: [{'data': ..., 'meta_info': ...}].  A field
    is [None] when the key is absent or holds [None]. *)
Record ws_data_packet := WsDataPacket {
  pk_meta : option loc;
  pk_data : option bytes;
}.

(** The first argument of [create_ws_data_packet] in the handlers. *)
Inductive payload :=
| Interim (content : string)     (* {"type": "interim_transcript_received", ...} *)
| Transcript (content : string)  (* {"type": "transcript", ...} *)
| ConnectionClosedNotice.        (* "transcriber_connection_closed" *)

(** What [create_ws_data_packet(data, self.meta_info)] is given: the
    payload, [self.meta_info], and what that object holds at this moment. *)
Record result := Result {
  r_data : payload;
  r_ref : option loc;
  r_meta : option dict;
}.

(** The loop of [send_audio_to_transcriber]. *)
Inductive loop_status :=
| NotStarted
| Consuming
| Stopped (why : option exn).   (* [break], cancellation, or a caught exception *)

(** How the calls into the speech SDK made during one transition go. *)
Record sdk := Sdk {
  close_ok : bool;   (* push_stream.close() *)
  stop_ok : bool;    (* recognizer.stop_continuous_recognition_async().get() *)
  write_ok : bool;   (* push_stream.write(data) *)
}.

(** How far [initialize_connection] gets before an SDK call raises. *)
Inductive init_outcome :=
| InitNoStream        (* raised before line 97 *)
| InitNoRecognizer    (* raised between lines 97 and 103 *)
| InitNotListening    (* raised between lines 103 and 119 *)
| InitOk.

(** The callbacks of the recognizer. *)
Inductive sdk_event :=
| Recognizing (text : string)
| Recognized (text : string)
| Canceled
| SessionStarted
| SessionStopped.

Record state := State {
  (* attributes of the object *)
  audio_submitted : bool;
  meta_info : option loc;
  current_request_id : option string;
  push_stream : bool;               (* [self.push_stream] is not [None] *)
  recognizer : bool;                (* [self.recognizer] is not [None] *)
  connection_on : bool;
  (* the world around the object *)
  heap : Py.heap;
  next_loc : loc;
  loop : loop_status;
  ids_generated : nat;              (* calls of [generate_request_id] so far *)
  written : list bytes;             (* payloads given to the recognizer *)
  listening : bool;                 (* continuous recognition is running *)
  output : list result;             (* [transcriber_output_queue] *)
}.

(** [__init__].  [meta_info] and [connection_on] belong to
    [BaseTranscriber.__init__], which is not part of the file; [meta_info] is
    assigned by the first packet before anything reads it below. *)
Definition init : state :=
  {| audio_submitted := false; meta_info := None; current_request_id := None;
     push_stream := false; recognizer := false; connection_on := true;
     heap := empty_heap; next_loc := 0; loop := NotStarted;
     ids_generated := 0; written := []; listening := false; output := [] |}.

Definition set_audio_submitted (v : bool) (s : state) : state :=
  State v (meta_info s) (current_request_id s) (push_stream s) (recognizer s)
    (connection_on s) (heap s) (next_loc s) (loop s) (ids_generated s)
    (written s) (listening s) (output s).

Definition set_meta_info (v : option loc) (s : state) : state :=
  State (audio_submitted s) v (current_request_id s) (push_stream s)
    (recognizer s) (connection_on s) (heap s) (next_loc s) (loop s)
    (ids_generated s) (written s) (listening s) (output s).

Definition set_current_request_id (v : option string) (s : state) : state :=
  State (audio_submitted s) (meta_info s) v (push_stream s) (recognizer s)
    (connection_on s) (heap s) (next_loc s) (loop s) (ids_generated s)
    (written s) (listening s) (output s).

Definition set_push_stream (v : bool) (s : state) : state :=
  State (audio_submitted s) (meta_info s) (current_request_id s) v
    (recognizer s) (connection_on s) (heap s) (next_loc s) (loop s)
    (ids_generated s) (written s) (listening s) (output s).

Definition set_recognizer (v : bool) (s : state) : state :=
  State (audio_submitted s) (meta_info s) (current_request_id s)
    (push_stream s) v (connection_on s) (heap s) (next_loc s) (loop s)
    (ids_generated s) (written s) (listening s) (output s).

Definition set_connection_on (v : bool) (s : state) : state :=
  State (audio_submitted s) (meta_info s) (current_request_id s)
    (push_stream s) (recognizer s) v (heap s) (next_loc s) (loop s)
    (ids_generated s) (written s) (listening s) (output s).

Definition set_heap (v : Py.heap) (s : state) : state :=
  State (audio_submitted s) (meta_info s) (current_request_id s)
    (push_stream s) (recognizer s) (connection_on s) v (next_loc s) (loop s)
    (ids_generated s) (written s) (listening s) (output s).

Definition set_next_loc (v : loc) (s : state) : state :=
  State (audio_submitted s) (meta_info s) (current_request_id s)
    (push_stream s) (recognizer s) (connection_on s) (heap s) v (loop s)
    (ids_generated s) (written s) (listening s) (output s).

Definition set_loop (v : loop_status) (s : state) : state :=
  State (audio_submitted s) (meta_info s) (current_request_id s)
    (push_stream s) (recognizer s) (connection_on s) (heap s) (next_loc s) v
    (ids_generated s) (written s) (listening s) (output s).

Definition set_ids_generated (v : nat) (s : state) : state :=
  State (audio_submitted s) (meta_info s) (current_request_id s)
    (push_stream s) (recognizer s) (connection_on s) (heap s) (next_loc s)
    (loop s) v (written s) (listening s) (output s).

Definition set_written (v : list bytes) (s : state) : state :=
  State (audio_submitted s) (meta_info s) (current_request_id s)
    (push_stream s) (recognizer s) (connection_on s) (heap s) (next_loc s)
    (loop s) (ids_generated s) v (listening s) (output s).

Definition set_listening (v : bool) (s : state) : state :=
  State (audio_submitted s) (meta_info s) (current_request_id s)
    (push_stream s) (recognizer s) (connection_on s) (heap s) (next_loc s)
    (loop s) (ids_generated s) (written s) v (output s).

Definition set_output (v : list result) (s : state) : state :=
  State (audio_submitted s) (meta_info s) (current_request_id s)
    (push_stream s) (recognizer s) (connection_on s) (heap s) (next_loc s)
    (loop s) (ids_generated s) (written s) (listening s) v.

Inductive outcome (A : Type) :=
| Return (a : A) (s : state)
| Raise (e : exn) (s : state).
Arguments Return {A} a s.
Arguments Raise {A} e s.

Section WithRequestIds.

(** [generate_request_id] belongs to [BaseTranscriber], which is not part of
    the file: [request_id n] is what its call number [n] returns. *)
Variable request_id : nat → string.

(** [cleanup], lines 220-239. *)
Definition cleanup (o : sdk) (s : state) : state :=
  if push_stream s && negb (close_ok o) then s     (* caught on line 238 *)
  else
    let s1 := set_push_stream false s in
    if recognizer s1 then
      set_recognizer false (if stop_ok o then set_listening false s1 else s1)
    else s1.

(** [_check_and_process_end_of_stream], lines 52-57. *)
Definition _check_and_process_end_of_stream (o : sdk) (p : ws_data_packet)
    (s : state) : outcome bool :=
  match pk_meta p with
  | None => Raise TypeError s                  (* ['eos' in None] *)
  | Some m =>
      if has_True (heap s m) "eos" then Return true (cleanup o s)
      else Return false s
  end.

(** Lines 63-68. *)
Definition note_first_packet (p : ws_data_packet) (s : state) : outcome unit :=
  if audio_submitted s then Return () s
  else
    let s1 := set_audio_submitted true (set_meta_info (pk_meta p) s) in
    let id := request_id (ids_generated s1) in
    let s2 :=
      set_current_request_id (Some id)
        (set_ids_generated (S (ids_generated s1)) s1) in
    match meta_info s2 with
    | None => Raise TypeError s2
    | Some l => Return () (set_heap (setitem l "request_id" (VStr id) (heap s2)) s2)
    end.

(** Lines 74-75. *)
Definition forward_audio (o : sdk) (p : ws_data_packet) (s : state)
  : outcome unit :=
  match pk_data p with
  | Some (b :: data) =>
      if push_stream s then
        if write_ok o then Return () (set_written (written s ++ [b :: data]) s)
        else Raise CollaboratorError s
      else Raise AttributeError s
  | _ => Return () s
  end.

(** One turn of the loop of [send_audio_to_transcriber] on the packet [p]
    that [input_queue.get()] returned.  An exception leaves the loop and is
    caught on line 76. *)
Definition send_audio_to_transcriber (o : sdk) (p : ws_data_packet)
    (s : state) : state :=
  match note_first_packet p s with
  | Raise e s1 => set_loop (Stopped (Some e)) s1
  | Return _ s1 =>
      match _check_and_process_end_of_stream o p s1 with
      | Raise e s2 => set_loop (Stopped (Some e)) s2
      | Return true s2 => set_loop (Stopped None) s2          (* break *)
      | Return false s2 =>
          match forward_audio o p s2 with
          | Raise e s3 => set_loop (Stopped (Some e)) s3
          | Return _ s3 => s3
          end
      end
  end.

(** [initialize_connection], lines 80-124; its exceptions are caught. *)
Definition initialize_connection (i : init_outcome) (s : state) : state :=
  match i with
  | InitNoStream => s
  | InitNoRecognizer => set_push_stream true s
  | InitNotListening => set_recognizer true (set_push_stream true s)
  | InitOk => set_listening true (set_recognizer true (set_push_stream true s))
  end.

(** [run], lines 45-50. *)
Definition run_adapter (i : init_outcome) (s : state) : state :=
  set_loop Consuming (initialize_connection i s).

(** [create_ws_data_packet(data, self.meta_info)] put on the output queue. *)
Definition put (d : payload) (s : state) : state :=
  set_output
    (output s ++ [Result d (meta_info s) (heap s <$> meta_info s)]) s.

(** The asynchronous handlers, lines 178-205. *)
Definition handler (ev : sdk_event) (s : state) : state :=
  match ev with
  | Recognizing text => put (Interim text) s
  | Recognized text => put (Transcript text) s
  | Canceled => s
  | SessionStarted => s
  | SessionStopped => put ConnectionClosedNotice s
  end.

(** [toggle_connection], lines 207-218. *)
Definition toggle_connection (o : sdk) (s : state) : state :=
  let s1 := set_connection_on false s in
  let s2 :=
    match loop s1 with
    | NotStarted => s1
    | Consuming => set_loop (Stopped None) s1
    | Stopped _ => s1
    end in
  cleanup o s2.

(** ** Runs *)

Inductive label :=
| LNewDict (d : dict)                       (* the caller builds a metadata dict *)
| LRun (i : init_outcome)
| LPacket (o : sdk) (p : ws_data_packet)    (* the loop gets [p] from the queue *)
| LEvent (ev : sdk_event)
| LToggle (o : sdk).

Definition new_dict (d : dict) (s : state) : state :=
  set_next_loc (S (next_loc s)) (set_heap (<[next_loc s := d]> (heap s)) s).

(** A reference carried by a packet denotes a dictionary that exists. *)
Definition allocated (p : ws_data_packet) (s : state) : bool :=
  match pk_meta p with
  | Some m => bool_decide (m < next_loc s)
  | None => true
  end.

Definition step (l : label) (s : state) : state :=
  match l with
  | LNewDict d => new_dict d s
  | LRun i => run_adapter i s
  | LPacket o p =>
      match loop s with
      | Consuming => if allocated p s then send_audio_to_transcriber o p s else s
      | _ => s
      end
  | LEvent ev => handler ev s
  | LToggle o => toggle_connection o s
  end.

Definition run (ls : list label) (s : state) : state :=
  foldl (λ s l, step l s) s ls.

End WithRequestIds.

End Azure.

(** ** The audio format chosen by [__init__] *)

Module AzureConfig.

(** [AudioStreamWaveFormat] *)
Inductive wave_format := PCM | MULAW.

(** [AudioStreamContainerFormat], as far as it is used. *)
Inductive container_format := CONTAINER_MULAW.

(** The attributes that [__init__] derives from [telephony_provider]. *)
Record config := Config {
  encoding : string;
  sampling_rate : Z;
  bits_per_sample : Z;
  channels : Z;
  recognition_language : string;
}.

(** [x in ("twilio", "exotel", "plivo")] *)
Definition telephony (provider : string) : bool :=
  String.eqb provider "twilio" || String.eqb provider "exotel"
  || String.eqb provider "plivo".

(** [__init__], lines 27-40.  The parameters [language] and [encoding] of
    the constructor are not read. *)
Definition configure (telephony_provider language encoding_arg : string)
  : config :=
  let enc0 := "linear16" in
  let rate0 := 8000%Z in
  let bits0 := 16%Z in
  if telephony telephony_provider then
    let enc := if String.eqb telephony_provider "twilio"
               then "mulaw" else "linear16" in
    let bits := if String.eqb enc "mulaw" then 8%Z else bits0 in
    Config enc rate0 bits 1 "en-IN"
  else if String.eqb telephony_provider "web_based_call" then
    Config enc0 16000 bits0 1 "en-IN"
  else Config enc0 rate0 bits0 1 "en-IN".

(** The [AudioStreamFormat] built by [initialize_connection], lines 88-94. *)
Record audio_stream_format := AudioStreamFormat {
  samples_per_second : Z;
  format_bits_per_sample : Z;
  format_channels : Z;
  compressed_stream_format : option container_format;
  wave_stream_format : wave_format;
}.

Definition audio_format (c : config) : audio_stream_format :=
  let mulaw := String.eqb (encoding c) "mulaw" in
  AudioStreamFormat (sampling_rate c) (bits_per_sample c) (channels c)
    (if mulaw then Some CONTAINER_MULAW else None)
    (if mulaw then MULAW else PCM).

End AzureConfig.

(* ===================================================================== *)
(** * Concrete inputs                                                     *)
(* ===================================================================== *)

Module Samples.
Import Py Elevenlabs.

(** Collaborators that never raise: the chunker gives a non-empty text back
    as one chunk, the codecs leave the bytes alone. *)
Definition plain : Collaborators :=
  {| text_chunker := λ t,
       match t with
       | Some s => if String.eqb s "" then [] else [s]
       | None => []
       end;
     b64decode := λ a, Some (String.list_byte_of_string a);
     convert_audio_to_wav := λ b, Some b;
     resample := λ b _ _, Some b |}.

(** The same, with a container conversion that raises on every input. *)
Definition broken_codec : Collaborators :=
  {| text_chunker := @text_chunker plain;
     b64decode := @b64decode plain;
     convert_audio_to_wav := λ _, None;
     resample := @resample plain |}.

(** A connected adapter with one active record and an empty queue. *)
Definition idle_with_record : state :=
  set_meta_info (Some 0)
    (set_websocket (Some 0)
       (new_dict (<["request_id" := VInt 7]> ∅) (init true 16000))).

(** The same adapter after the peer has closed connection 0. *)
Definition dead_connection : state :=
  set_closed [0] idle_with_record.

(** Unit A of the spec's first scenario, answered here by three audio
    frames and no final marker. *)
Definition unit_a : dict := <["request_id" := VInt 1]> ∅.

Definition three_frames : list label :=
  [LMonitor (Some 0); LNewDict unit_a; LPush (Some 0) (Some "Hello world");
   LSender 0 true; LSender 0 true;
   LRecv (RxJson (Some "a1") false); LNext;
   LRecv (RxJson (Some "a2") false); LNext;
   LRecv (RxJson (Some "a3") false); LNext].

(** Unit B of the spec's second scenario: empty text, end of upstream
    input; the transport answers with one frame marked final, and later
    with one more frame. *)
Definition unit_b : dict :=
  <["end_of_llm_stream" := VBool true]> (<["request_id" := VInt 2]> ∅).



(** An adapter whose task 0 is a fresh [sender] for the text "hi". *)
Definition ready_to_send : state :=
  run (C := plain)
    [LMonitor (Some 0); LNewDict unit_a; LPush (Some 0) (Some "hi")]
    (init true 16000).

(** ** The properties as the spec words them *)



(** "The empty-flush message is sent at the end of the unit, whatever the
    text and whether or not the send of a chunk failed", for task [u] run on
    the answers [oks] from [s]. *)
Definition flush_always_sent (C : Collaborators) (u : tid) (oks : list bool)
    (s : state) : Prop :=
  connected s = true →
  task_done u (sender_run u oks s) = true →
  ∃ w, Sent (Some u) w FFlush ∈ log (sender_run u oks s).




End Samples.

(* ===================================================================== *)
(** * Properties of ElevenlabsSynthesizer                                 *)
(* ===================================================================== *)

Module ElevenlabsFacts.
Import Py Elevenlabs.

Section WithCollaborators.
Context {C : Collaborators}.

(** ** The supervisor loop *)

Lemma monitor_connection_text_queue (conn : option ws) (s : state) :
  text_queue (monitor_connection conn s) = text_queue s.
Proof.
  unfold monitor_connection.
  destruct (connected s); [reflexivity|].
  destruct conn; reflexivity.
Qed.

Lemma connected_live (s : state) (w : ws) :
  websocket s = Some w → is_closed w s = false → connected s = true.
Proof. intros Hw Hc. unfold connected. rewrite Hw, Hc. reflexivity. Qed.

(** C6.  When the connection handle is present and alive, one iteration of
    the supervisor loop changes nothing at all, the handle included; and no
    iteration, whatever the state and whatever the outcome of a reconnect,
    touches the Correlation Queue. *)
Theorem monitor_keeps_live_handle_and_queue (conn : option ws) (s : state) :
  (∀ w, websocket s = Some w → is_closed w s = false →
        monitor_connection conn s = s
        ∧ websocket (monitor_connection conn s) = Some w)
  ∧ text_queue (monitor_connection conn s) = text_queue s
  ∧ text_queue (step (LMonitor conn) s) = text_queue s.
Proof.
  split; [|split; apply monitor_connection_text_queue].
  intros w Hw Hc.
  unfold monitor_connection.
  rewrite (connected_live s w Hw Hc).
  split; [reflexivity | exact Hw].
Qed.

(** ** Shutdown *)

Lemma websocket_cleanup (s : state) : websocket (cleanup s) = None.
Proof. reflexivity. Qed.

Lemma task_done_cancel (u : tid) (s : state) :
  task_done u (cancel_task u s) = true.
Proof.
  unfold task_done, cancel_task, set_task_pc.
  change (tasks (set_tasks ?v s)) with v.
  rewrite list_lookup_alter_eq.
  destruct (_ !! _); reflexivity.
Qed.

Lemma cleanup_fixpoint (s : state) :
  websocket s = None →
  (∀ u, sender_task s = Some u → task_done u s = true) →
  cleanup s = s.
Proof.
  intros Hw Hd. unfold cleanup.
  assert (set_websocket None s = s) as Hs.
  { destruct s; simpl in *; subst; reflexivity. }
  destruct (sender_task s) as [u|] eqn:Hu.
  - rewrite (Hd u eq_refl), Hw. exact Hs.
  - rewrite Hw. exact Hs.
Qed.

Lemma sender_task_cleanup (s : state) : sender_task (cleanup s) = sender_task s.
Proof.
  unfold cleanup, ws_close, cancel_task, set_task_pc.
  repeat case_match; simpl; congruence.
Qed.

Lemma task_done_ws_close (u : tid) (w : ws) (s : state) :
  task_done u (ws_close w s) = task_done u s.
Proof. unfold ws_close. destruct (is_closed w s); reflexivity. Qed.

Lemma task_done_cleanup (u : tid) (s : state) :
  sender_task s = Some u → task_done u (cleanup s) = true.
Proof.
  intros Hu. unfold cleanup. rewrite Hu.
  set (s1 := if task_done u s then s else cancel_task u s).
  assert (task_done u s1 = true) as Hd.
  { subst s1. destruct (task_done u s) eqn:E; [exact E|].
    apply task_done_cancel. }
  change (task_done u (set_websocket None ?x)) with (task_done u x).
  destruct (websocket s1); [rewrite task_done_ws_close|]; exact Hd.
Qed.

(** C7.  [cleanup] is a total function of the state (it has no way to
    raise); it leaves the handle absent; a second call changes nothing; on an
    adapter that was never started it changes nothing; and when the
    connection is already dead it completes without touching the set of
    closed connections. *)
Theorem cleanup_idempotent (s : state) :
  websocket (cleanup s) = None
  ∧ websocket (cleanup (cleanup s)) = None
  ∧ cleanup (cleanup s) = cleanup s
  ∧ (∀ mulaw rate, cleanup (init mulaw rate) = init mulaw rate)
  ∧ (∀ w, websocket s = Some w → is_closed w s = true →
          closed (cleanup s) = closed s ∧ websocket (cleanup s) = None).
Proof.
  split; [reflexivity|]. split; [reflexivity|]. split; [|split].
  - apply cleanup_fixpoint; [reflexivity|].
    intros u Hu. rewrite sender_task_cleanup in Hu.
    by apply task_done_cleanup.
  - reflexivity.
  - intros w Hw Hc. split; [|reflexivity].
    unfold cleanup.
    assert (∀ s', websocket s' = Some w → closed s' = closed s →
              closed (set_websocket None
                (match websocket s' with
                 | Some w0 => ws_close w0 s' | None => s' end)) = closed s)
      as Hgen.
    { intros s' Hw' Hcl. rewrite Hw'. simpl. unfold ws_close, is_closed.
      rewrite Hcl. unfold is_closed in Hc. rewrite Hc. exact Hcl. }
    destruct (sender_task s) as [u|]; [destruct (task_done u s)|];
      apply Hgen; try assumption; reflexivity.
Qed.

(** ** The Correlation Queue on the Result Path *)

Lemma setitem_lookup (l : loc) (k k' : string) (v : value) (h : Py.heap) :
  setitem l k v h l !! k' = if decide (k = k') then Some v else h l !! k'.
Proof.
  unfold setitem, Py.heap in *. rewrite fn_lookup_insert.
  destruct (decide (k = k')) as [->|Hne].
  - apply lookup_insert_eq.
  - by apply lookup_insert_ne.
Qed.

Lemma dequeue_empty (s : state) : text_queue s = [] → dequeue s = inr s.
Proof. intros Hq. unfold dequeue. rewrite Hq. reflexivity. Qed.

Lemma dequeue_cons (s : state) (m : loc) (q : list loc) :
  text_queue s = m :: q →
  dequeue s = inr (set_meta_info (Some m) (set_text_queue q s)).
Proof.
  intros Hq. unfold dequeue. rewrite Hq. reflexivity.
Qed.




(** The record a result is emitted under: the head of the queue when there
    is one, the active record otherwise. *)
Lemma generate_head_ref (message : bytes) (s s' : state) (p : packet) :
  generate_head message s = Yield p s' →
  Some (p_ref p) = match text_queue s with m :: _ => Some m | [] => meta_info s end
  ∧ meta_info s' = Some (p_ref p)
  ∧ text_queue s' = tail (text_queue s)
  ∧ ∀ k, k ≠ "format" → p_meta p !! k = heap s (p_ref p) !! k.
Proof.
  unfold generate_head.
  destruct (text_queue s) as [|m q] eqn:Hq.
  - rewrite (dequeue_empty s Hq). unfold meta_setitem.
    destruct (meta_info s) as [l|] eqn:Hm;
      repeat case_match; intros; simpl in *; simplify_eq; simpl;
      repeat split; try congruence;
      intros k Hk; rewrite setitem_lookup; by rewrite decide_False.
  - rewrite (dequeue_cons s m q Hq). unfold meta_setitem. simpl.
    repeat case_match; intros; simpl in *; simplify_eq; simpl;
      repeat split; try congruence;
      intros k Hk; rewrite setitem_lookup; by rewrite decide_False.
Qed.





Lemma gen_deliver (message : bytes) (pending : bool) (s : state)
    (why : option exn) :
  gen (deliver message pending s) = GDone why →
  ∃ e s', why = Some e ∧ generate_head message s = Raise e s'.
Proof.
  unfold deliver.
  destruct (generate_head message s) as [s'|p s'|e' s']; simpl; intros Hg;
    simplify_eq; eauto.
Qed.

Lemma gen_body_done (pending : bool) (s : state) (why : option exn) :
  gen (body_done pending s) = GDone why →
  ∃ e s', why = Some e ∧ generate_head sentinel s = Raise e s'.
Proof.
  unfold body_done. destruct pending; simpl; [|done].
  apply gen_deliver.
Qed.

Lemma on_recv_cancelled_cases (o : rx) (s : state) :
  on_recv_cancelled o s = on_recv o s
  ∨ (gen s = GIdle ∧ receiver o s = RError
     ∧ on_recv_cancelled o s = set_gen GCancelled s).
Proof.
  unfold on_recv_cancelled, on_recv.
  destruct (gen s); auto. destruct (receiver o s); auto.
Qed.




(** ** How [generate] ends *)










Lemma run_snoc (ls : list label) (l : label) (s : state) :
  run (ls ++ [l]) s = step l (run ls s).
Proof. unfold run. by rewrite foldl_snoc. Qed.

Lemma run_app (ls ls' : list label) (s : state) :
  run (ls ++ ls') s = run ls' (run ls s).
Proof. unfold run. by rewrite foldl_app. Qed.







(** ** The end-of-stream flag *)



(** ** The first-chunk flag *)

(** The result emitted for an event carries [is_first_chunk] exactly when
    the record it is emitted under already held it before the event: the
    flag is written after the [yield]. *)
Lemma generate_head_first_chunk (message : bytes) (s s' : state) (p : packet) :
  generate_head message s = Yield p s' →
  p_meta p !! "is_first_chunk" = heap s (p_ref p) !! "is_first_chunk".
Proof.
  intros Hy. apply generate_head_ref in Hy as (_ & _ & _ & Hk). by apply Hk.
Qed.

(** ** Errors on the Result Path *)


(** ** The Submission Path *)

Definition live (s : state) (w : ws) : Prop :=
  websocket s = Some w ∧ is_closed w s = false.

Lemma ws_send_live (u : option tid) (f : frame) (s : state) (w : ws) :
  live s w →
  ws_send u f true s = inr (record (Sent u w f) s)
  ∧ ws_send u f false s = inl ConnectionClosed.
Proof. intros [Hw Hc]. unfold ws_send. by rewrite Hw, Hc. Qed.

Lemma sender_step_loop (u : tid) (ok : bool) (s : state) (t : task)
    (rest : list string) :
  tasks s !! u = Some t → t_pc t = SLoop rest →
  sender_step u ok s = sender_loop u (t_eos t) rest ok s.
Proof. intros Ht Hpc. unfold sender_step. by rewrite Ht, Hpc. Qed.

Lemma sender_step_enter (u : tid) (ok : bool) (s : state) (w : ws) (t : task) :
  live s w → tasks s !! u = Some t → t_pc t = SNew ∨ t_pc t = SWait →
  sender_step u ok s = sender_loop u (t_eos t) (chunks_of (t_text t)) ok s.
Proof.
  intros [Hw Hc] Ht Hpc. unfold sender_step, sender_enter, chunks_of.
  rewrite Ht, (connected_live s w Hw Hc).
  destruct Hpc as [-> | ->]; by destruct (text_nonempty (t_text t)).
Qed.

Lemma tasks_set_task_pc (u : tid) (pc : sender_pc) (s : state) (t : task) :
  tasks s !! u = Some t →
  tasks (set_task_pc u pc s) !! u = Some (Task (t_text t) (t_eos t) pc).
Proof.
  intros Ht. unfold set_task_pc.
  change (tasks (set_tasks ?v s)) with v.
  by rewrite list_lookup_alter_eq, Ht.
Qed.

Lemma task_done_set_done (u : tid) (s : state) (t : task) :
  tasks s !! u = Some t → task_done u (set_task_pc u SDone s) = true.
Proof.
  intros Ht. unfold task_done. by rewrite (tasks_set_task_pc u SDone s t Ht).
Qed.

(** All the sends succeed: the chunks go out in order, then the flush. *)
Lemma sender_loop_all_ok (u : tid) (w : ws) (eos : bool) (rest : list string) :
  ∀ (s : state) (t : task),
    live s w → tasks s !! u = Some t → t_eos t = eos →
    let s' := sender_run u (repeat true (length rest))
                (sender_loop u eos rest true s) in
    log s' = log s ++ ((λ c, Sent (Some u) w (FText c)) <$> rest)
                   ++ [Sent (Some u) w FFlush]
    ∧ task_done u s' = true.
Proof.
  induction rest as [|c rest IH]; intros s t Hl Ht He; simpl.
  - unfold sender_flush.
    assert (live (if eos then set_last_text_sent true s else s) w) as Hl'.
    { by destruct eos. }
    destruct (ws_send_live (Some u) FFlush _ w Hl') as [-> _].
    split.
    + by destruct eos.
    + apply (task_done_set_done u _ t). by destruct eos.
  - destruct (ws_send_live (Some u) (FText c) s w Hl) as [-> _].
    set (s1 := set_task_pc u (SLoop rest) (record (Sent (Some u) w (FText c)) s)).
    assert (tasks s1 !! u = Some (Task (t_text t) (t_eos t) (SLoop rest))) as Ht1.
    { by apply tasks_set_task_pc. }
    rewrite (sender_step_loop u true s1 _ rest Ht1 eq_refl). simpl.
    rewrite He.
    destruct (IH s1 _ Hl Ht1 He) as [Hlog Hdone].
    split; [|exact Hdone].
    rewrite Hlog. simpl. by rewrite <- app_assoc.
Qed.

(** The send of chunk number [k] fails: the chunks before it went out,
    nothing else does, and [sender] has returned. *)
Lemma sender_loop_fails (u : tid) (w : ws) (eos : bool) (rest : list string) :
  ∀ (k : nat) (s : state) (t : task) (ok : bool) (oks : list bool),
    k < length rest →
    live s w → tasks s !! u = Some t → t_eos t = eos →
    repeat true k ++ [false] = ok :: oks →
    let s' := sender_run u oks (sender_loop u eos rest ok s) in
    log s' = log s ++ ((λ c, Sent (Some u) w (FText c)) <$> take k rest)
    ∧ task_done u s' = true.
Proof.
  induction rest as [|c rest IH]; intros k s t ok oks Hk Hl Ht He Hoks;
    simpl in Hk; [lia|].
  destruct k as [|k]; simpl in Hoks; simplify_eq; simpl.
  - destruct (ws_send_live (Some u) (FText c) s w Hl) as [_ ->].
    split; [by rewrite app_nil_r|]. by apply (task_done_set_done u s t).
  - destruct (ws_send_live (Some u) (FText c) s w Hl) as [-> _].
    set (s1 := set_task_pc u (SLoop rest) (record (Sent (Some u) w (FText c)) s)).
    assert (tasks s1 !! u = Some (Task (t_text t) (t_eos t) (SLoop rest))) as Ht1.
    { by apply tasks_set_task_pc. }
    destruct (repeat true k ++ [false]) as [|ok' oks'] eqn:Hr.
    { by destruct k. }
    simpl. rewrite (sender_step_loop u ok' s1 _ rest Ht1 eq_refl). simpl.
    destruct (IH k s1 _ ok' oks' ltac:(lia) Hl Ht1 eq_refl Hr) as [Hlog Hdone].
    split; [|exact Hdone].
    rewrite Hlog. simpl. by rewrite <- app_assoc.
Qed.

(** C4, as the code has it.  [sender] is started on a text (the empty string
    included) with a live connection.  If every send succeeds, the messages
    written for the unit are its chunks in order followed by the empty-flush
    message, and [sender] has returned.  If the send of a chunk fails,
    [sender] returns at once: the chunks before it are all that was
    written, and no flush follows. *)
Theorem flush_sent_unless_chunk_fails (u : tid) (w : ws) (text : string)
    (eos : bool) (pc : sender_pc) (s : state) :
  websocket s = Some w → is_closed w s = false →
  tasks s !! u = Some (Task (Some text) eos pc) →
  pc = SNew ∨ pc = SWait →
  let chunks := chunks_of (Some text) in
  (let s' := sender_run u (repeat true (S (length chunks))) s in
   log s' = log s ++ ((λ c, Sent (Some u) w (FText c)) <$> chunks)
                  ++ [Sent (Some u) w FFlush]
   ∧ task_done u s' = true)
  ∧ (text = "" → chunks = [])
  ∧ (∀ k, k < length chunks →
       let s' := sender_run u (repeat true k ++ [false]) s in
       log s' = log s ++ ((λ c, Sent (Some u) w (FText c)) <$> take k chunks)
       ∧ task_done u s' = true).
Proof.
  intros Hw Hc Ht Hpc chunks.
  assert (live s w) as Hl by done.
  split; [|split].
  - simpl.
    rewrite (sender_step_enter u true s w _ Hl Ht Hpc). simpl.
    by apply (sender_loop_all_ok u w eos _ s _ Hl Ht).
  - intros ->. reflexivity.
  - intros k Hk.
    destruct (repeat true k ++ [false]) as [|ok oks] eqn:Hr.
    { by destruct k. }
    simpl. rewrite (sender_step_enter u ok s w _ Hl Ht Hpc). simpl.
    by apply (sender_loop_fails u w eos _ k s _ ok oks Hk Hl Ht).
Qed.

(** ** Order of enqueue and send *)

(** What one transition adds to the history and to the pool of tasks. *)
Inductive log_step (s s' : state) : Prop :=
| log_same :
    log s' = log s → length (tasks s') = length (tasks s) → log_step s s'
| log_sent (u : option tid) (w : ws) (f : frame) :
    log s' = log s ++ [Sent u w f] →
    (∀ u', u = Some u' → u' < length (tasks s)) →
    length (tasks s') = length (tasks s) → log_step s s'
| log_pushed (m : loc) :
    log s' = log s ++ [Spawned (length (tasks s)); Enqueued (length (tasks s)) m] →
    length (tasks s') = S (length (tasks s)) → log_step s s'.

Lemma length_tasks_set_task_pc (u : tid) (pc : sender_pc) (s : state) :
  length (tasks (set_task_pc u pc s)) = length (tasks s).
Proof. unfold set_task_pc. simpl. apply length_alter. Qed.

Lemma log_step_ws_send (u : tid) (f : frame) (ok : bool) (pc : sender_pc)
    (s : state) :
  u < length (tasks s) →
  log_step s (set_task_pc u pc
                match ws_send (Some u) f ok s with inr s' => s' | inl _ => s end).
Proof.
  intros Hu. unfold ws_send.
  destruct (websocket s) as [w|]; [destruct (is_closed w s), ok|];
    try (apply log_same; [reflexivity | apply length_tasks_set_task_pc]).
  apply (log_sent s _ (Some u) w f);
    [reflexivity | by intros ? [= <-]
    | by rewrite length_tasks_set_task_pc].
Qed.

Lemma log_step_sender_flush (u : tid) (eos ok : bool) (s : state) :
  u < length (tasks s) → log_step s (sender_flush u eos ok s).
Proof.
  intros Hu. unfold sender_flush.
  destruct (log_step_ws_send u FFlush ok SDone
              (if eos then set_last_text_sent true s else s))
    as [Hl Ht|u' w f Hl Hu' Ht|m Hl Ht].
  - by destruct eos.
  - apply log_same; [rewrite Hl|rewrite Ht]; by destruct eos.
  - apply (log_sent s _ u' w f); [rewrite Hl| |rewrite Ht]; by destruct eos.
  - apply (log_pushed s _ m); [rewrite Hl|rewrite Ht]; by destruct eos.
Qed.

Lemma log_step_sender_loop (u : tid) (eos : bool) (rest : list string)
    (ok : bool) (s : state) :
  u < length (tasks s) → log_step s (sender_loop u eos rest ok s).
Proof.
  intros Hu. destruct rest as [|c rest]; simpl.
  - by apply log_step_sender_flush.
  - pose proof (log_step_ws_send u (FText c) ok (SLoop rest) s Hu) as Hs.
    destruct (ws_send (Some u) (FText c) ok s) as [e|s'] eqn:Hsend.
    + apply log_same; [reflexivity | apply length_tasks_set_task_pc].
    + exact Hs.
Qed.

Lemma log_step_sender_step (u : tid) (ok : bool) (s : state) :
  log_step s (sender_step u ok s).
Proof.
  unfold sender_step.
  destruct (tasks s !! u) as [t|] eqn:Ht; [|by apply log_same].
  apply lookup_lt_Some in Ht.
  destruct (t_pc t); try (by apply log_step_sender_loop);
    try (by apply log_same);
    unfold sender_enter;
    (destruct (connected s);
     [destruct (text_nonempty (t_text t));
      [by apply log_step_sender_loop | by apply log_step_sender_flush]
     |apply log_same; [reflexivity | apply length_tasks_set_task_pc]]).
Qed.

Lemma log_generate_head (message : bytes) (s : state) :
  log (state_of (generate_head message s)) = log s
  ∧ tasks (state_of (generate_head message s)) = tasks s.
Proof.
  unfold generate_head, meta_setitem.
  destruct (text_queue s) as [|m q] eqn:Hq.
  - rewrite (dequeue_empty s Hq). repeat case_match; simplify_eq; by simpl.
  - rewrite (dequeue_cons s m q Hq). repeat case_match; simplify_eq; by simpl.
Qed.

Lemma log_generate_tail (message : bytes) (s : state) :
  log (state_of (generate_tail message s)) = log s
  ∧ tasks (state_of (generate_tail message s)) = tasks s.
Proof.
  unfold generate_tail, mark_first_chunk, reset_on_last_text, meta_setitem.
  repeat case_match; simplify_eq; by simpl.
Qed.

Lemma log_deliver (message : bytes) (pending : bool) (s : state) :
  log (deliver message pending s) = log s
  ∧ tasks (deliver message pending s) = tasks s.
Proof.
  unfold deliver. pose proof (log_generate_head message s) as Hh.
  destruct (generate_head message s); exact Hh.
Qed.

Lemma log_body_done (pending : bool) (s : state) :
  log (body_done pending s) = log s ∧ tasks (body_done pending s) = tasks s.
Proof.
  unfold body_done. destruct pending; [apply log_deliver | done].
Qed.

Lemma log_step_step (l : label) (s : state) : log_step s (step l s).
Proof.
  assert (∀ o, log_step s (on_recv o s)) as Hrecv.
  { intros o. unfold on_recv. destruct (gen s); try by apply log_same.
    destruct (receiver o s); try by apply log_same.
    destruct (log_deliver chunk final s) as [Hl Ht].
    apply log_same; [exact Hl | by rewrite Ht]. }
  destruct l as [d|meta text|u ok|o| |conn|w| |o]; cbn [step].
  - by apply log_same.
  - destruct (allocated meta s); [|by apply log_same].
    destruct meta as [m|]; [|by apply log_same].
    apply (log_pushed s _ m); simpl.
    + by rewrite <- app_assoc.
    + rewrite length_app. simpl. lia.
  - apply log_step_sender_step.
  - apply Hrecv.
  - unfold on_next. destruct (gen s) as [|message pending|pending|w|];
      try by apply log_same.
    + pose proof (log_generate_tail message s) as [Hl Ht].
      destruct (generate_tail message s) as [s'|p s'|e s']; simpl in *.
      * destruct (log_body_done pending s') as [Hl' Ht'].
        apply log_same; congruence.
      * apply log_same; simpl; congruence.
      * apply log_same; simpl; congruence.
    + destruct (log_body_done pending (generate_after_sentinel s)) as [Hl Ht].
      apply log_same; [exact Hl | by rewrite Ht].
  - unfold monitor_connection.
    destruct (connected s); [by apply log_same|].
    destruct conn as [w|]; simpl; [|by apply log_same].
    by apply (log_sent s _ None w FBos).
  - unfold ws_close. destruct (is_closed w s); by apply log_same.
  - unfold cleanup, ws_close, cancel_task.
    repeat case_match; apply log_same; simpl;
      rewrite ?length_alter; reflexivity.
  - destruct (on_recv_cancelled_cases o s) as [->|(_ & _ & ->)];
      [apply Hrecv | by apply log_same].
Qed.

Lemma enqueue_count_app (u : tid) (lg lg' : list event) :
  enqueue_count u (lg ++ lg') = enqueue_count u lg + enqueue_count u lg'.
Proof. induction lg as [|e lg IH]; simpl; [done|]. rewrite IH. lia. Qed.

Lemma enqueue_count_pos (u : tid) (lg : list event) :
  0 < enqueue_count u lg → ∃ j l, lg !! j = Some (Enqueued u l).
Proof.
  induction lg as [|e lg IH]; simpl; [lia|].
  destruct (is_enqueue_of u e) eqn:He.
  - intros _. destruct e as [|u' l|]; simpl in He; try done.
    apply bool_decide_eq_true in He as ->. by exists 0, l.
  - intros Hpos. destruct (IH Hpos) as (j & l & Hj). by exists (S j), l.
Qed.

(** The invariant of the history: sends come after the enqueue of their
    unit, and the record of a unit is enqueued once, when its task is
    created. *)
Definition history_ok (s : state) : Prop :=
  sent_after_enqueue (log s)
  ∧ ∀ u, enqueue_count u (log s)
         = if bool_decide (u < length (tasks s)) then 1 else 0.

Lemma sent_after_enqueue_snoc (lg : list event) (e : event) :
  sent_after_enqueue lg →
  (∀ u w f, e = Sent (Some u) w f → ∃ j l, lg !! j = Some (Enqueued u l)) →
  sent_after_enqueue (lg ++ [e]).
Proof.
  intros Hlg He i u w f Hi.
  destruct (decide (i < length lg)) as [Hlt|Hge].
  - rewrite lookup_app_l in Hi by done.
    destruct (Hlg i u w f Hi) as (j & l & Hj & Hjl).
    exists j, l. split; [done|]. rewrite lookup_app_l; [done|lia].
  - rewrite lookup_app_r in Hi by lia.
    destruct (i - length lg) as [|n] eqn:Hn; simpl in Hi; [|done].
    simplify_eq.
    destruct (He u w f eq_refl) as (j & l & Hj).
    exists j, l. pose proof (lookup_lt_Some _ _ _ Hj).
    split; [lia|]. by rewrite lookup_app_l.
Qed.

Lemma history_ok_step (l : label) (s : state) :
  history_ok s → history_ok (step l s).
Proof.
  intros [Hord Hcnt].
  destruct (log_step_step l s) as [Hl Ht|u w f Hl Hu Ht|m Hl Ht].
  - split; [by rewrite Hl|]. intros u. by rewrite Hl, Ht.
  - split.
    + rewrite Hl. apply sent_after_enqueue_snoc; [done|].
      intros u' w' f' [= -> -> ->].
      apply enqueue_count_pos. rewrite Hcnt.
      rewrite bool_decide_eq_true_2; [lia|by apply Hu].
    + intros u'. rewrite Hl, Ht, enqueue_count_app, Hcnt. simpl. lia.
  - split.
    + rewrite Hl.
      change [Spawned (length (tasks s)); Enqueued (length (tasks s)) m]
        with ([Spawned (length (tasks s))] ++ [Enqueued (length (tasks s)) m]).
      rewrite app_assoc.
      apply sent_after_enqueue_snoc; [|done].
      by apply sent_after_enqueue_snoc.
    + intros u. rewrite Hl, Ht, enqueue_count_app, Hcnt. simpl.
      repeat case_bool_decide; lia.
Qed.

Lemma history_ok_run (ls : list label) (s : state) :
  history_ok s → history_ok (run ls s).
Proof.
  intros Hs. induction ls as [|l ls IH] using rev_ind; [exact Hs|].
  rewrite run_snoc. by apply history_ok_step.
Qed.

(** C5.  [push] appends exactly one record to the Correlation Queue, the
    given one, at the tail; the [sender] it creates has not run when [push]
    returns.  In every state reachable from a fresh adapter, under every
    interleaving of the caller, the senders, the transport, the supervisor
    and the shutdown, each message a [sender] wrote to the connection comes
    after the enqueue of its unit's record, and each unit's record was
    enqueued exactly once. *)
Theorem record_enqueued_before_any_send (ls : list label) (mulaw : bool)
    (rate : Z) :
  let s := run ls (init mulaw rate) in
  sent_after_enqueue (log s)
  ∧ (∀ u, u < length (tasks s) → enqueue_count u (log s) = 1)
  ∧ (∀ q m text,
       let q' := state_of (push (Some m) text q) in
       text_queue q' = text_queue q ++ [m]
       ∧ length (text_queue q') = S (length (text_queue q))
       ∧ log q' = log q ++ [Spawned (length (tasks q));
                            Enqueued (length (tasks q)) m]
       ∧ ∃ eos, tasks q' = tasks q ++ [Task text eos SNew]).
Proof.
  assert (history_ok (run ls (init mulaw rate))) as [Hord Hcnt].
  { apply history_ok_run. split; [by intros i u w f Hi|]. by intros u. }
  split; [exact Hord|]. split.
  - intros u Hu. rewrite Hcnt. by rewrite bool_decide_eq_true_2.
  - intros q m text. simpl. repeat split.
    + rewrite length_app. simpl. lia.
    + by rewrite <- app_assoc.
    + eauto.
Qed.

End WithCollaborators.


(** ** Evaluations on concrete runs *)

Section Evaluations.
Import Samples.

(** C1, evaluated.  One unit is pushed and the transport answers with three
    audio frames.  All three results are emitted under the unit's record
    (reference 0); the first one does not carry [is_first_chunk], the second
    and the third both do, and the record keeps the flag afterwards.  In
    general ([generate_head_first_chunk]) a result carries the flag only if
    its record held it before the event. *)
Theorem first_chunk_flag_is_late :
  let s := run (C := plain) three_frames (init true 16000) in
  map (λ p, (p_ref p, p_meta p !! "is_first_chunk")) (emitted s)
    = [(0, None); (0, Some (VBool true)); (0, Some (VBool true))]
  ∧ heap s 0 !! "is_first_chunk" = Some (VBool true)
  ∧ first_chunk_generated s = true
  ∧ gen s = GIdle.
Proof. vm_compute. repeat split; reflexivity. Qed.




Example frame_before_first_push_ends_generate :
  gen (run (C := plain) [LMonitor (Some 0); LRecv (RxJson (Some "a1") false)]
         (init true 16000))
  = GDone (Some TypeError).
Proof. vm_compute. reflexivity. Qed.

Example failed_conversion_raises :
  ∃ s', generate_head (C := broken_codec) [x01]
          (set_meta_info (Some 0) (new_dict unit_a (init false 16000)))
        = Raise CollaboratorError s'.
Proof. eexists. vm_compute. reflexivity. Qed.


Example failed_chunk_history :
  log (sender_run (C := plain) 0 [false] ready_to_send)
  = [Sent None 0 FBos; Spawned 0; Enqueued 0 0].
Proof. vm_compute. reflexivity. Qed.

(** C4 fails as the spec words it: the connection is live, the send of the
    only chunk of "hi" fails, [sender] returns, and no flush was written. *)
Lemma failed_chunk_sends_no_flush :
  ¬ flush_always_sent plain 0 [false] ready_to_send.
Proof.
  intros Hf. destruct Hf as [w Hw].
  - vm_compute. reflexivity.
  - vm_compute. reflexivity.
  - pose proof failed_chunk_history as Hlog.
    revert Hw Hlog.
    generalize (log (sender_run (C := plain) 0 [false] ready_to_send)).
    intros lg Hw ->.
    repeat (apply elem_of_cons in Hw as [Hw|Hw]; [discriminate|]).
    by apply elem_of_nil in Hw.
Qed.

(** ** The theorems at concrete inputs *)

(** The supervisor on a connected, idle adapter. *)
Lemma monitor_keeps_live_handle_and_queue_witness :
  websocket idle_with_record = Some 0
  ∧ is_closed 0 idle_with_record = false
  ∧ monitor_connection (Some 5) idle_with_record = idle_with_record.
Proof.
  split; [reflexivity|]. split; [reflexivity|].
  exact (proj1 (proj1 (monitor_keeps_live_handle_and_queue (C := plain)
                         (Some 5) idle_with_record) 0 eq_refl eq_refl)).
Defined.

(** Shutdown after the peer closed the connection. *)
Lemma cleanup_idempotent_witness :
  websocket dead_connection = Some 0
  ∧ is_closed 0 dead_connection = true
  ∧ closed (cleanup dead_connection) = closed dead_connection
  ∧ websocket (cleanup dead_connection) = None.
Proof.
  split; [reflexivity|]. split; [reflexivity|].
  destruct (cleanup_idempotent dead_connection)
    as (_ & _ & _ & _ & Hdead).
  exact (Hdead 0 eq_refl eq_refl).
Defined.




(** The text "hi" with both sends accepted. *)
Lemma flush_sent_unless_chunk_fails_witness :
  websocket ready_to_send = Some 0
  ∧ is_closed 0 ready_to_send = false
  ∧ tasks ready_to_send !! 0 = Some (Task (Some "hi") false SNew)
  ∧ log (sender_run (C := plain) 0 [true; true] ready_to_send)
    = log ready_to_send
        ++ [Sent (Some 0) 0 (FText "hi"); Sent (Some 0) 0 FFlush].
Proof.
  assert (websocket ready_to_send = Some 0) as Hw by (vm_compute; reflexivity).
  assert (is_closed 0 ready_to_send = false) as Hc by (vm_compute; reflexivity).
  assert (tasks ready_to_send !! 0 = Some (Task (Some "hi") false SNew)) as Ht
    by (vm_compute; reflexivity).
  split; [exact Hw|]. split; [exact Hc|]. split; [exact Ht|].
  exact (proj1 (proj1 (flush_sent_unless_chunk_fails (C := plain) 0 0 "hi"
                         false SNew ready_to_send Hw Hc Ht
                         (or_introl eq_refl)))).
Defined.

(** The one unit of the three-frame run. *)
Lemma record_enqueued_before_any_send_witness :
  0 < length (tasks (run (C := plain) three_frames (init true 16000)))
  ∧ enqueue_count 0 (log (run (C := plain) three_frames (init true 16000))) = 1.
Proof.
  assert (0 < length (tasks (run (C := plain) three_frames (init true 16000))))
    as Hu by (vm_compute; lia).
  split; [exact Hu|].
  destruct (record_enqueued_before_any_send (C := plain) three_frames true
              16000) as (_ & Hone & _).
  exact (Hone 0 Hu).
Defined.

End Evaluations.

End ElevenlabsFacts.

(* ===================================================================== *)
(** * Properties of AzureTranscriber                                      *)
(* ===================================================================== *)

Module AzureFacts.
Import Py Azure.

(** A packet of audio whose metadata is the dictionary at reference 0. *)
Definition audio_packet : ws_data_packet :=
  WsDataPacket (Some 0) (Some [x01; x02]).

Definition all_ok : sdk := Sdk true true true.

(** A started adapter, and a dictionary without and with the [eos] flag. *)
Definition started (d : dict) : list label := [LNewDict d; LRun InitOk].

Definition plain_meta : dict := <["stream_sid" := VStr "s1"]> ∅.

Definition eos_meta : dict := <["eos" := VBool true]> plain_meta.

Definition sample_id (n : nat) : string :=
  match n with 0 => "id-0" | _ => "id-n" end.

(** A packet with a payload and no metadata dictionary. *)
Definition bare_packet : ws_data_packet :=
  WsDataPacket None (Some [x01]).

(** "A request id is generated exactly once, on the first audio packet, and
    every result emitted afterwards carries that same metadata record and
    request id", for the first packet [p], taken by the loop after the run
    [pre] and followed by the run [post]. *)
Definition results_carry_request_id (request_id : nat → string)
    (pre post : list label) (o : sdk) (p : ws_data_packet) : Prop :=
  let s0 := Azure.run request_id pre init in
  let s := Azure.run request_id (pre ++ LPacket o p :: post) init in
  audio_submitted s0 = false → loop s0 = Consuming →
  ids_generated s = 1
  ∧ ∀ r, r ∈ drop (length (output s0)) (output s) →
      ∃ d, r_meta r = Some d
           ∧ d !! "request_id" = Some (VStr (request_id 0)).

Section WithRequestIds.
Variable request_id : nat → string.

Abbreviation step := (step request_id).
Abbreviation run := (run request_id).

(** ** What the recognizer is given *)

(** The part of the state that the metadata and the results depend on. *)
Definition core (s : state) :=
  (audio_submitted s, meta_info s, current_request_id s, heap s, next_loc s,
   ids_generated s, output s).

Lemma core_cleanup (o : sdk) (s : state) : core (cleanup o s) = core s.
Proof. unfold cleanup. repeat case_match; reflexivity. Qed.

Lemma written_cleanup (o : sdk) (s : state) : written (cleanup o s) = written s.
Proof. unfold cleanup. repeat case_match; reflexivity. Qed.

Lemma loop_cleanup (o : sdk) (s : state) : loop (cleanup o s) = loop s.
Proof. unfold cleanup. repeat case_match; reflexivity. Qed.

Lemma cleanup_releases (o : sdk) (s : state) :
  close_ok o = true ∨ push_stream s = false →
  push_stream (cleanup o s) = false ∧ recognizer (cleanup o s) = false.
Proof.
  intros Hc. unfold cleanup.
  destruct (push_stream s) eqn:Hp, (close_ok o) eqn:Hk; simpl;
    try (destruct Hc; discriminate);
    destruct (recognizer s) eqn:Hr, (stop_ok o); simpl; by rewrite ?Hp, ?Hr.
Qed.

Lemma note_first_packet_eos (p : ws_data_packet) (s : state) (m : loc) :
  pk_meta p = Some m →
  ∃ s1, note_first_packet request_id p s = Return () s1
        ∧ written s1 = written s ∧ loop s1 = loop s
        ∧ push_stream s1 = push_stream s ∧ recognizer s1 = recognizer s
        ∧ ∀ k, k ≠ "request_id" → heap s1 m !! k = heap s m !! k.
Proof.
  intros Hm. unfold note_first_packet.
  destruct (audio_submitted s).
  - exists s. by repeat split.
  - simpl. rewrite Hm. eexists. split; [reflexivity|]. simpl.
    repeat split. intros k Hk. unfold setitem, Py.heap in *.
    rewrite fn_lookup_insert. by rewrite lookup_insert_ne.
Qed.

Lemma step_stopped (l : label) (s : state) (w : list bytes) :
  (∀ i, l ≠ LRun i) →
  loop s ≠ Consuming ∧ written s = w →
  loop (step l s) ≠ Consuming ∧ written (step l s) = w.
Proof.
  intros Hl [Hs Hw]. destruct l as [d|i|o p|ev|o]; simpl.
  - done.
  - by destruct (Hl i).
  - destruct (loop s) eqn:E; try done; by rewrite E.
  - by destruct ev.
  - unfold toggle_connection. rewrite loop_cleanup, written_cleanup. simpl.
    destruct (loop s) eqn:E; simpl; rewrite ?E; by split.
Qed.

(** C10.  A packet whose metadata holds [eos] set to [True]: [cleanup] is
    run and the loop is left before the payload is looked at, so nothing is
    written to the recognizer for this packet; the stream and the
    recognizer are released (when closing the stream does not raise); the
    loop takes no further packet; and as long as the adapter is not started
    again, nothing is written to the recognizer any more. *)
Theorem end_of_stream_packet_not_forwarded (o : sdk) (p : ws_data_packet)
    (s : state) (m : loc) :
  pk_meta p = Some m →
  heap s m !! "eos" = Some (VBool true) →
  let s' := send_audio_to_transcriber request_id o p s in
  loop s' = Stopped None
  ∧ written s' = written s
  ∧ (close_ok o = true ∨ push_stream s = false →
       push_stream s' = false ∧ recognizer s' = false)
  ∧ (∀ o' p', step (LPacket o' p') s' = s')
  ∧ (∀ ls, (∀ l, l ∈ ls → ∀ i, l ≠ LRun i) →
       written (run ls s') = written s).
Proof.
  intros Hm Heos s'.
  destruct (note_first_packet_eos p s m Hm)
    as (s1 & Hn & Hw & Hl & Hps & Hrec & Hk).
  assert (s' = set_loop (Stopped None) (cleanup o s1)) as Hs'.
  { subst s'. unfold send_audio_to_transcriber.
    rewrite Hn. unfold _check_and_process_end_of_stream. rewrite Hm.
    unfold has_True. rewrite Hk by done. by rewrite Heos. }
  assert (loop s' = Stopped None ∧ written s' = written s) as [Hloop Hwr].
  { rewrite Hs'. simpl. by rewrite written_cleanup. }
  split; [exact Hloop|]. split; [exact Hwr|]. split; [|split].
  - intros Hc. rewrite Hs'. simpl.
    apply cleanup_releases. by rewrite Hps.
  - intros o' p'. simpl. by rewrite Hloop.
  - intros ls Hls.
    assert (loop (run ls s') ≠ Consuming ∧ written (run ls s') = written s)
      as [_ Hfin]; [|exact Hfin].
    induction ls as [|l ls IH] using rev_ind.
    + simpl. by rewrite Hloop, Hwr.
    + unfold Azure.run. rewrite foldl_snoc.
      apply step_stopped.
      * apply Hls. apply elem_of_app. right. by apply list_elem_of_singleton.
      * apply IH. intros l' Hl'. apply Hls. apply elem_of_app. by left.
Qed.

(** ** The request id *)

(** [generate_request_id] has been called as many times as the flag
    [audio_submitted] says: never, or once. *)
Definition ids_ok (s : state) : Prop :=
  ids_generated s = if audio_submitted s then 1 else 0.

(** The metadata once the first packet, with the dictionary at [m], has
    been taken from the queue. *)
Definition tagged (m : loc) (s : state) : Prop :=
  audio_submitted s = true ∧ meta_info s = Some m ∧ m < next_loc s
  ∧ ids_generated s = 1 ∧ current_request_id s = Some (request_id 0)
  ∧ heap s m !! "request_id" = Some (VStr (request_id 0)).

(** A result that refers to the dictionary at [m] and shows the request id. *)
Definition carries (m : loc) (r : result) : Prop :=
  r_ref r = Some m
  ∧ ∃ d, r_meta r = Some d ∧ d !! "request_id" = Some (VStr (request_id 0)).

Lemma core_set_loop (v : loop_status) (s : state) : core (set_loop v s) = core s.
Proof. reflexivity. Qed.

(** Lines 70-75: the turn of the loop after the first-packet block. *)
Definition rest_of_turn (o : sdk) (p : ws_data_packet) (s1 : state) : state :=
  match _check_and_process_end_of_stream o p s1 with
  | Raise e s2 => set_loop (Stopped (Some e)) s2
  | Return true s2 => set_loop (Stopped None) s2
  | Return false s2 =>
      match forward_audio o p s2 with
      | Raise e s3 => set_loop (Stopped (Some e)) s3
      | Return _ s3 => s3
      end
  end.

Lemma send_audio_rest (o : sdk) (p : ws_data_packet) (s : state) :
  send_audio_to_transcriber request_id o p s
  = match note_first_packet request_id p s with
    | Raise e s1 => set_loop (Stopped (Some e)) s1
    | Return _ s1 => rest_of_turn o p s1
    end.
Proof. reflexivity. Qed.

Lemma core_rest_of_turn (o : sdk) (p : ws_data_packet) (s1 : state) :
  core (rest_of_turn o p s1) = core s1.
Proof.
  unfold rest_of_turn, _check_and_process_end_of_stream, forward_audio.
  repeat case_match; simplify_eq; rewrite ?core_set_loop, ?core_cleanup;
    reflexivity.
Qed.

Lemma core_send_audio (o : sdk) (p : ws_data_packet) (s : state) :
  audio_submitted s = true →
  core (send_audio_to_transcriber request_id o p s) = core s.
Proof.
  intros Ha. rewrite send_audio_rest. unfold note_first_packet.
  rewrite Ha. apply core_rest_of_turn.
Qed.

Lemma tagged_core (m : loc) (s s' : state) :
  core s' = core s → tagged m s → tagged m s'.
Proof. unfold core, tagged. intros [= -> -> -> -> -> -> _]. done. Qed.

Lemma ids_ok_core (s s' : state) : core s' = core s → ids_ok s → ids_ok s'.
Proof. unfold core, ids_ok. intros [= -> _ _ _ _ -> _]. done. Qed.

Lemma output_core (s s' : state) : core s' = core s → output s' = output s.
Proof. unfold core. by intros [= _ _ _ _ _ _ ->]. Qed.

Lemma core_toggle_connection (o : sdk) (s : state) :
  core (toggle_connection o s) = core s.
Proof.
  unfold toggle_connection. rewrite core_cleanup.
  by destruct (loop (set_connection_on false s)).
Qed.

Lemma core_run_adapter (i : init_outcome) (s : state) :
  core (run_adapter i s) = core s.
Proof. by destruct i. Qed.

Lemma ids_ok_step (l : label) (s : state) : ids_ok s → ids_ok (step l s).
Proof.
  intros Hs. destruct l as [d|i|o p|ev|o]; simpl.
  - exact Hs.
  - apply (ids_ok_core s); [apply core_run_adapter | exact Hs].
  - destruct (loop s); try exact Hs.
    destruct (allocated p s); [|exact Hs].
    destruct (audio_submitted s) eqn:Ha.
    { apply (ids_ok_core s); [by apply core_send_audio | exact Hs]. }
    rewrite send_audio_rest. unfold note_first_packet. rewrite Ha. simpl.
    unfold ids_ok in Hs. rewrite Ha in Hs.
    destruct (pk_meta p) as [m|]; [|by rewrite Hs].
    eapply ids_ok_core; [apply core_rest_of_turn|].
    unfold ids_ok. simpl. by rewrite Hs.
  - by destruct ev.
  - apply (ids_ok_core s); [apply core_toggle_connection | exact Hs].
Qed.

Lemma ids_ok_run (ls : list label) : ids_ok (run ls init).
Proof.
  induction ls as [|l ls IH] using rev_ind; [reflexivity|].
  unfold Azure.run. rewrite foldl_snoc. by apply ids_ok_step.
Qed.

(** The first packet: the id is generated and written into its metadata. *)
Lemma first_packet_tags (o : sdk) (p : ws_data_packet) (s : state) (m : loc) :
  audio_submitted s = false → ids_generated s = 0 →
  pk_meta p = Some m → m < next_loc s →
  tagged m (send_audio_to_transcriber request_id o p s)
  ∧ output (send_audio_to_transcriber request_id o p s) = output s.
Proof.
  intros Ha Hi Hm Hlt.
  rewrite send_audio_rest. unfold note_first_packet. rewrite Ha. simpl.
  rewrite Hm, Hi.
  match goal with
  | |- context [rest_of_turn o p ?s1] =>
      pose proof (core_rest_of_turn o p s1) as Hc
  end.
  split.
  - eapply tagged_core; [exact Hc|].
    unfold tagged. simpl. repeat split; try done.
    unfold setitem, Py.heap in *. rewrite fn_lookup_insert.
    apply lookup_insert_eq.
  - by rewrite (output_core _ _ Hc).
Qed.

(** Afterwards every transition keeps the metadata as it is, and what it
    puts on the output queue refers to it. *)
Lemma tagged_step (l : label) (s : state) (m : loc) :
  tagged m s →
  tagged m (step l s)
  ∧ ∃ new, output (step l s) = output s ++ new ∧ Forall (carries m) new.
Proof.
  intros Ht.
  assert (∀ s', core s' = core s →
            tagged m s'
            ∧ ∃ new, output s' = output s ++ new ∧ Forall (carries m) new)
    as Hsame.
  { intros s' Hc. split; [by apply (tagged_core m s)|].
    exists []. by rewrite app_nil_r, (output_core _ _ Hc). }
  assert (∀ d, tagged m (put d s)
               ∧ ∃ new, output (put d s) = output s ++ new
                        ∧ Forall (carries m) new) as Hput.
  { intros d. destruct Ht as (Ha & Hm & Hlt & Hi & Hc & Hh).
    split; [done|]. eexists. split; [reflexivity|].
    apply Forall_singleton. unfold carries. simpl. rewrite Hm. simpl.
    split; [done|]. eauto. }
  destruct l as [d|i|o p|ev|o]; cbn [Azure.step].
  - destruct Ht as (Ha & Hm & Hlt & Hi & Hc & Hh).
    split; [|exists []; by rewrite app_nil_r].
    unfold tagged, new_dict. simpl. repeat split; try done; [lia|].
    unfold Py.heap in *. rewrite fn_lookup_insert_ne by lia. exact Hh.
  - apply Hsame, core_run_adapter.
  - destruct (loop s); try by apply Hsame.
    destruct (allocated p s); [|by apply Hsame].
    apply Hsame, core_send_audio. by destruct Ht.
  - destruct ev; simpl; try apply Hput; by apply Hsame.
  - apply Hsame, core_toggle_connection.
Qed.

Lemma azure_run_snoc (ls : list label) (l : label) (s : state) :
  run (ls ++ [l]) s = step l (run ls s).
Proof. unfold Azure.run. by rewrite foldl_snoc. Qed.

Lemma tagged_run (ls : list label) (s : state) (m : loc) :
  tagged m s →
  tagged m (run ls s)
  ∧ ∃ new, output (run ls s) = output s ++ new ∧ Forall (carries m) new.
Proof.
  intros Ht. induction ls as [|l ls IH] using rev_ind.
  - split; [exact Ht|]. exists []. by rewrite app_nil_r.
  - rewrite azure_run_snoc.
    destruct IH as [IHt (new & Hout & Hnew)].
    destruct (tagged_step l _ m IHt) as [Ht' (new' & Hout' & Hnew')].
    split; [exact Ht'|]. exists (new ++ new'). split.
    + by rewrite Hout', Hout, app_assoc.
    + by apply Forall_app.
Qed.

(** C9, as the code has it.  Let the first packet that the loop takes from
    the input queue carry the metadata dictionary at [m].  Before it no request id was
    generated; from then on, whatever happens, exactly one was, it is the
    current request id, the adapter's metadata is that one dictionary, and
    every result put on the output queue afterwards (interim, final or
    session-stopped) refers to that dictionary and shows that request id.
    On every run the id is generated at most once. *)
Theorem request_id_generated_once (pre post : list label) (o : sdk)
    (p : ws_data_packet) (m : loc) :
  let s0 := run pre init in
  let s := run (pre ++ LPacket o p :: post) init in
  audio_submitted s0 = false → loop s0 = Consuming →
  pk_meta p = Some m → m < next_loc s0 →
  ids_generated s0 = 0
  ∧ ids_generated s = 1
  ∧ current_request_id s = Some (request_id 0)
  ∧ meta_info s = Some m
  ∧ (∀ r, r ∈ drop (length (output s0)) (output s) →
       r_ref r = Some m
       ∧ ∃ d, r_meta r = Some d
              ∧ d !! "request_id" = Some (VStr (request_id 0)))
  ∧ (∀ ls, ids_generated (run ls init) ≤ 1).
Proof.
  intros s0 s Ha Hl Hm Hlt.
  assert (ids_generated s0 = 0) as Hi.
  { pose proof (ids_ok_run pre) as Hok. unfold ids_ok in Hok.
    fold s0 in Hok. by rewrite Ha in Hok. }
  assert (s = run post (send_audio_to_transcriber request_id o p s0)) as ->.
  { subst s s0. unfold Azure.run. rewrite foldl_app. simpl.
    fold (run pre init). rewrite Hl. unfold allocated. rewrite Hm.
    by rewrite bool_decide_eq_true_2. }
  destruct (first_packet_tags o p s0 m Ha Hi Hm Hlt) as [Ht Hout].
  destruct (tagged_run post _ m Ht) as [Ht' (new & Hout' & Hnew)].
  destruct Ht' as (_ & Hm' & _ & Hi' & Hc' & _).
  split; [exact Hi|]. split; [exact Hi'|]. split; [exact Hc'|].
  split; [exact Hm'|]. split.
  - intros r Hr. rewrite Hout', Hout, drop_app_length in Hr.
    rewrite Forall_forall in Hnew. by apply Hnew.
  - intros ls. pose proof (ids_ok_run ls) as Hok. unfold ids_ok in Hok.
    rewrite Hok. destruct (audio_submitted (run ls init)); lia.
Qed.

End WithRequestIds.

(** ** The theorems at concrete inputs *)

(** An end-of-stream packet with a payload, on a started adapter. *)
Lemma end_of_stream_packet_not_forwarded_witness :
  let s := Azure.run sample_id (started eos_meta) init in
  pk_meta audio_packet = Some 0
  ∧ heap s 0 !! "eos" = Some (VBool true)
  ∧ loop (send_audio_to_transcriber sample_id all_ok audio_packet s)
    = Stopped None
  ∧ written (send_audio_to_transcriber sample_id all_ok audio_packet s)
    = written s.
Proof.
  intros s.
  assert (heap s 0 !! "eos" = Some (VBool true)) as He
    by (vm_compute; reflexivity).
  split; [reflexivity|]. split; [exact He|].
  destruct (end_of_stream_packet_not_forwarded sample_id all_ok audio_packet
              s 0 eq_refl He) as (Hl & Hw & _).
  split; [exact Hl | exact Hw].
Defined.

(** Two packets and three recognizer events on a started adapter. *)
Lemma request_id_generated_once_witness :
  let s0 := Azure.run sample_id (started plain_meta) init in
  let s := Azure.run sample_id
             (started plain_meta
              ++ LPacket all_ok audio_packet
                 :: [LEvent (Recognizing "he"); LPacket all_ok audio_packet;
                     LEvent (Recognized "hello"); LEvent SessionStopped])
             init in
  audio_submitted s0 = false ∧ loop s0 = Consuming
  ∧ pk_meta audio_packet = Some 0 ∧ 0 < next_loc s0
  ∧ ids_generated s = 1
  ∧ current_request_id s = Some (sample_id 0).
Proof.
  intros s0 s.
  assert (audio_submitted s0 = false) as Ha by (vm_compute; reflexivity).
  assert (loop s0 = Consuming) as Hl by (vm_compute; reflexivity).
  assert (0 < next_loc s0) as Hn by (vm_compute; lia).
  split; [exact Ha|]. split; [exact Hl|]. split; [reflexivity|].
  split; [exact Hn|].
  destruct (request_id_generated_once sample_id (started plain_meta)
              [LEvent (Recognizing "he"); LPacket all_ok audio_packet;
               LEvent (Recognized "hello"); LEvent SessionStopped]
              all_ok audio_packet 0 Ha Hl eq_refl Hn)
    as (_ & Hone & Hid & _).
  split; [exact Hone | exact Hid].
Defined.

Example results_after_bare_packet :
  let s := Azure.run sample_id
             (started plain_meta
              ++ LPacket all_ok bare_packet :: [LEvent (Recognized "hello")])
             init in
  ids_generated s = 1
  ∧ audio_submitted s = true
  ∧ meta_info s = None
  ∧ (λ r, (r_ref r, r_meta r)) <$> output s = [(None, None)].
Proof. vm_compute. repeat split; reflexivity. Qed.

(** C9 fails as it is worded: the first packet carries no metadata.  The
    request id is generated on line 65, line 68 then subscripts [None] and
    the loop ends; [audio_submitted] stays true, so no later packet sets the
    metadata, and the final transcript that the recognizer delivers next is
    put on the output queue with no metadata record and no request id. *)
Lemma first_packet_without_metadata_untagged :
  ¬ results_carry_request_id sample_id (started plain_meta)
      [LEvent (Recognized "hello")] all_ok bare_packet.
Proof.
  intros Hc. destruct Hc as [_ Hall].
  - vm_compute. reflexivity.
  - vm_compute. reflexivity.
  - pose proof results_after_bare_packet as (_ & _ & _ & Hout).
    change (length (output (Azure.run sample_id (started plain_meta) init)))
      with 0 in Hall.
    rewrite drop_0 in Hall.
    revert Hall Hout.
    generalize (output (Azure.run sample_id
                  (started plain_meta
                   ++ LPacket all_ok bare_packet
                      :: [LEvent (Recognized "hello")]) init)).
    intros out Hall Hout.
    destruct out as [|r out]; [discriminate Hout|].
    destruct (Hall r) as (d & Hd & _); [by left|].
    simpl in Hout. congruence.
Qed.

End AzureFacts.

(* ===================================================================== *)
(** * More of ElevenlabsSynthesizer                                       *)
(* ===================================================================== *)

Module ElevenlabsMore.
Import Py Elevenlabs ElevenlabsFacts.

Section WithCollaborators.
Context {C : Collaborators}.

(** ** What the Result Path leaves alone *)

(** The attributes that neither [receiver] nor [generate] writes. *)
Definition submission_side (s : state) :=
  (synthesized_characters s, websocket s, sender_task s, closed s, tasks s,
   log s, next_loc s, use_mulaw s, sampling_rate s).

Lemma submission_side_generate_head (message : bytes) (s : state) :
  submission_side (state_of (generate_head message s)) = submission_side s.
Proof.
  unfold generate_head, meta_setitem.
  destruct (text_queue s) as [|m q] eqn:Hq.
  - rewrite (dequeue_empty s Hq). repeat case_match; simplify_eq; reflexivity.
  - rewrite (dequeue_cons s m q Hq). repeat case_match; simplify_eq; reflexivity.
Qed.

Lemma submission_side_generate_tail (message : bytes) (s : state) :
  submission_side (state_of (generate_tail message s)) = submission_side s.
Proof.
  unfold generate_tail, mark_first_chunk, reset_on_last_text, meta_setitem.
  repeat case_match; simplify_eq; reflexivity.
Qed.

Lemma submission_side_deliver (message : bytes) (pending : bool) (s : state) :
  submission_side (deliver message pending s) = submission_side s.
Proof.
  unfold deliver. pose proof (submission_side_generate_head message s) as Hh.
  destruct (generate_head message s); exact Hh.
Qed.

Lemma submission_side_body_done (pending : bool) (s : state) :
  submission_side (body_done pending s) = submission_side s.
Proof.
  unfold body_done. destruct pending; [apply submission_side_deliver | done].
Qed.

Lemma submission_side_on_recv (o : rx) (s : state) :
  submission_side (on_recv o s) = submission_side s.
Proof.
  unfold on_recv. destruct (gen s); try reflexivity.
  destruct (receiver o s); try reflexivity.
  apply submission_side_deliver.
Qed.

Lemma submission_side_on_recv_cancelled (o : rx) (s : state) :
  submission_side (on_recv_cancelled o s) = submission_side s.
Proof.
  destruct (on_recv_cancelled_cases o s) as [->|(_ & _ & ->)];
    [apply submission_side_on_recv | reflexivity].
Qed.

Lemma submission_side_on_next (s : state) :
  submission_side (on_next s) = submission_side s.
Proof.
  unfold on_next. destruct (gen s) as [|message pending|pending|w|];
    try reflexivity.
  - pose proof (submission_side_generate_tail message s) as Ht.
    destruct (generate_tail message s) as [s'|p s'|e s']; simpl in Ht.
    + by rewrite submission_side_body_done.
    + exact Ht.
    + exact Ht.
  - by rewrite submission_side_body_done.
Qed.

(** ** The character counter *)

(** What a transition adds to [synthesized_characters]. *)
Definition counted (l : label) (s : state) : Z :=
  match l with
  | LPush meta text => if allocated meta s then text_len text else 0
  | _ => 0
  end.

Fixpoint counted_run (ls : list label) (s : state) : Z :=
  match ls with
  | [] => 0
  | l :: ls' => counted l s + counted_run ls' (step l s)
  end.

Lemma text_len_nonneg (text : option string) : (0 ≤ text_len text)%Z.
Proof. destruct text; simpl; lia. Qed.

Lemma counted_run_nonneg (ls : list label) :
  ∀ s, (0 ≤ counted_run ls s)%Z.
Proof.
  induction ls as [|l ls IH]; intros s; simpl; [lia|].
  specialize (IH (step l s)).
  assert (0 ≤ counted l s)%Z; [|lia].
  destruct l; simpl; try lia. destruct (allocated meta s); [|lia].
  apply text_len_nonneg.
Qed.

Lemma synthesized_characters_step (l : label) (s : state) :
  synthesized_characters (step l s)
  = (synthesized_characters s + counted l s)%Z.
Proof.
  destruct l as [d|meta text|u ok|o| |conn|w| |o]; cbn [step counted].
  - simpl. lia.
  - destruct (allocated meta s); [|lia]. by destruct meta.
  - rewrite Z.add_0_r.
    unfold sender_step, sender_enter, sender_loop, sender_flush, ws_send,
      set_task_pc, record.
    repeat case_match; simplify_eq; reflexivity.
  - rewrite Z.add_0_r.
    pose proof (submission_side_on_recv o s) as Hs. by injection Hs.
  - rewrite Z.add_0_r.
    pose proof (submission_side_on_next s) as Hs. by injection Hs.
  - rewrite Z.add_0_r. unfold monitor_connection, establish_connection.
    repeat case_match; simplify_eq; reflexivity.
  - rewrite Z.add_0_r. unfold ws_close. by destruct (is_closed w s).
  - rewrite Z.add_0_r. unfold cleanup, ws_close, cancel_task, set_task_pc.
    repeat case_match; reflexivity.
  - rewrite Z.add_0_r.
    pose proof (submission_side_on_recv_cancelled o s) as Hs. by injection Hs.
Qed.

Lemma run_cons (l : label) (ls : list label) (s : state) :
  run (l :: ls) s = run ls (step l s).
Proof. reflexivity. Qed.

(** X1.  [synthesized_characters] is changed by [push] only, which adds the
    length of its text (nothing for [None]) before it looks at the metadata:
    the text is counted even when [push] then raises on a missing
    [meta_info], and whether or not it is ever sent.  No other transition
    touches the counter, so along every run it is the initial value plus the
    lengths of the pushed texts, and it never decreases. *)
Theorem synthesized_characters_counts_pushes (ls : list label) (s : state) :
  synthesized_characters (run ls s)
  = (synthesized_characters s + counted_run ls s)%Z
  ∧ (synthesized_characters s ≤ synthesized_characters (run ls s))%Z
  ∧ (∀ text q, ∃ q',
       push None text q = Raise TypeError q'
       ∧ synthesized_characters q'
         = (synthesized_characters q + text_len text)%Z
       ∧ text_queue q' = text_queue q ∧ tasks q' = tasks q).
Proof.
  assert (synthesized_characters (run ls s)
          = (synthesized_characters s + counted_run ls s)%Z) as Hrun.
  { revert s. induction ls as [|l ls IH]; intros s.
    - simpl. lia.
    - rewrite run_cons, IH, synthesized_characters_step. simpl. lia. }
  split; [exact Hrun|]. split.
  - rewrite Hrun. pose proof (counted_run_nonneg ls s). lia.
  - intros text q. eexists. split; [reflexivity|]. by simpl.
Qed.

(** ** The flag [last_text_sent] *)

Lemma last_text_sent_generate_head (message : bytes) (s : state) :
  last_text_sent (state_of (generate_head message s)) = last_text_sent s.
Proof.
  unfold generate_head, meta_setitem.
  destruct (text_queue s) as [|m q] eqn:Hq.
  - rewrite (dequeue_empty s Hq). repeat case_match; simplify_eq; reflexivity.
  - rewrite (dequeue_cons s m q Hq). repeat case_match; simplify_eq; reflexivity.
Qed.

Lemma last_text_sent_generate_tail (message : bytes) (s : state) :
  last_text_sent s = true →
  last_text_sent (state_of (generate_tail message s)) = true.
Proof.
  intros Hl.
  unfold generate_tail, mark_first_chunk, reset_on_last_text, meta_setitem.
  repeat case_match; simplify_eq; simpl in *; congruence.
Qed.

Lemma last_text_sent_deliver (message : bytes) (pending : bool) (s : state) :
  last_text_sent (deliver message pending s) = last_text_sent s.
Proof.
  unfold deliver. pose proof (last_text_sent_generate_head message s) as Hh.
  destruct (generate_head message s); exact Hh.
Qed.

Lemma last_text_sent_body_done (pending : bool) (s : state) :
  last_text_sent (body_done pending s) = last_text_sent s.
Proof.
  unfold body_done. destruct pending; [apply last_text_sent_deliver | done].
Qed.

Lemma last_text_sent_step (l : label) (s : state) :
  last_text_sent s = true → last_text_sent (step l s) = true.
Proof.
  intros Hl.
  assert (∀ o, last_text_sent (on_recv o s) = true) as Hrecv.
  { intros o. unfold on_recv. destruct (gen s); try exact Hl.
    destruct (receiver o s); try exact Hl.
    by rewrite last_text_sent_deliver. }
  destruct l as [d|meta text|u ok|o| |conn|w| |o]; cbn [step].
  - exact Hl.
  - destruct (allocated meta s); [|exact Hl]. by destruct meta.
  - unfold sender_step, sender_enter, sender_loop, sender_flush, ws_send,
      set_task_pc, record.
    repeat case_match; simplify_eq; simpl; congruence.
  - apply Hrecv.
  - unfold on_next. destruct (gen s) as [|message pending|pending|w|];
      try exact Hl.
    + pose proof (last_text_sent_generate_tail message s Hl) as Ht.
      destruct (generate_tail message s) as [s'|p s'|e s']; simpl in Ht.
      * by rewrite last_text_sent_body_done.
      * exact Ht.
      * exact Ht.
    + by rewrite last_text_sent_body_done.
  - unfold monitor_connection, establish_connection.
    repeat case_match; simplify_eq; simpl; congruence.
  - unfold ws_close. by destruct (is_closed w s).
  - unfold cleanup, ws_close, cancel_task, set_task_pc.
    repeat case_match; simpl; congruence.
  - destruct (on_recv_cancelled_cases o s) as [->|(_ & _ & ->)];
      [apply Hrecv | exact Hl].
Qed.

(** X2.  Once [last_text_sent] is true it stays true along every run: no
    transition writes [False] to it (line 149, under the comment "Reset the
    last_text_sent", assigns [True] again), neither a new [push], nor a
    reconnect, nor [cleanup]. *)
Theorem last_text_sent_is_never_reset (ls : list label) (s : state) :
  last_text_sent s = true → last_text_sent (run ls s) = true.
Proof.
  revert s. induction ls as [|l ls IH]; intros s Hl; [exact Hl|].
  rewrite run_cons. by apply IH, last_text_sent_step.
Qed.

(** X3.  While [last_text_sent] is true the first-chunk bookkeeping is
    cleared at every event: after the body of [generate] has been resumed on
    a message other than the sentinel, with [l] the active record,
    [first_chunk_generated] is false whatever it was, and if it was false
    the record [l] has been given [is_first_chunk = True] once more. *)
Theorem first_chunk_reset_at_every_event (message : bytes) (s : state)
    (l : loc) :
  last_text_sent s = true → meta_info s = Some l → message ≠ sentinel →
  ∃ s', generate_tail message s = Return s'
        ∧ first_chunk_generated s' = false
        ∧ last_text_sent s' = true
        ∧ meta_info s' = Some l
        ∧ (first_chunk_generated s = false →
             heap s' l !! "is_first_chunk" = Some (VBool true))
        ∧ (first_chunk_generated s = true → heap s' = heap s).
Proof.
  intros Hl Hm Hne.
  unfold generate_tail, mark_first_chunk, reset_on_last_text, meta_setitem.
  rewrite (bool_decide_eq_false_2 _ Hne).
  destruct (first_chunk_generated s) eqn:Hf.
  - rewrite Hl. eexists. split; [reflexivity|]. simpl.
    repeat split; try done.
  - rewrite Hm. simpl. rewrite Hl. eexists. split; [reflexivity|]. simpl.
    repeat split; try done.
    intros _. rewrite setitem_lookup. by rewrite decide_True.
Qed.

(** ** Frames without audio *)

(** X5.  A frame without audio changes nothing, final marker or not: when
    the [audio] key is absent, null or empty, [receiver] yields neither a
    chunk nor the end sentinel, so [generate] emits nothing and no record is
    dequeued.  The sentinel is produced only behind an audio chunk. *)
Theorem frame_without_audio_is_dropped (isFinal : bool) (s : state) :
  on_recv (RxJson None isFinal) s = s
  ∧ on_recv (RxJson (Some "") isFinal) s = s
  ∧ (∀ o chunk final, receiver o s = RChunk chunk final →
       ∃ a, o = RxJson (Some a) final ∧ a ≠ "" ∧ b64decode a = Some chunk
            ∧ connected s = true).
Proof.
  split; [|split].
  - unfold on_recv, receiver. by repeat case_match.
  - unfold on_recv, receiver. by repeat case_match.
  - intros o chunk final. unfold receiver.
    destruct (connected s); [|by destruct o].
    destruct o as [| |[a|] f]; try done.
    destruct (String.eqb a "") eqn:Ha; [done|].
    destruct (b64decode a) as [c|] eqn:Hb; [|done].
    intros [= <- <-]. exists a. repeat split; try done.
    by apply String.eqb_neq.
Qed.

(** ** The Correlation Queue, event by event *)

(** The transitions of the transport and of the consumer for audio frames
    that are not marked final. *)
Fixpoint frames (audios : list string) : list label :=
  match audios with
  | [] => []
  | a :: audios' => LRecv (RxJson (Some a) false) :: LNext :: frames audios'
  end.

(** A frame that [receiver] decodes to a chunk other than the sentinel. *)
Definition plain_audio (a : string) : Prop :=
  a ≠ "" ∧ ∃ chunk, b64decode a = Some chunk ∧ chunk ≠ sentinel.

Lemma connected_submission_side (s s' : state) :
  submission_side s' = submission_side s →
  connected s' = connected s ∧ use_mulaw s' = use_mulaw s.
Proof.
  unfold submission_side, connected, is_closed.
  intros [= _ -> _ -> _ _ _ -> _]. done.
Qed.

Lemma one_frame_takes_one_record (a : string) (s : state) (m : loc)
    (q : list loc) :
  gen s = GIdle → connected s = true → use_mulaw s = true →
  plain_audio a → text_queue s = m :: q →
  let s' := on_next (on_recv (RxJson (Some a) false) s) in
  gen s' = GIdle ∧ connected s' = true ∧ use_mulaw s' = true
  ∧ text_queue s' = q
  ∧ ∃ p, emitted s' = emitted s ++ [p] ∧ p_ref p = m.
Proof.
  intros Hg Hc Hu (Ha & chunk & Hb & Hne) Hq s'.
  assert (connected s' = true ∧ use_mulaw s' = true) as [Hc' Hu'].
  { destruct (connected_submission_side s s') as [-> ->]; [|done].
    subst s'. by rewrite submission_side_on_next, submission_side_on_recv. }
  split; [|split; [exact Hc'|split; [exact Hu'|]]].
  all: subst s'; unfold on_recv; rewrite Hg; unfold receiver; rewrite Hc;
    apply String.eqb_neq in Ha; rewrite Ha, Hb;
    unfold deliver, generate_head; rewrite (dequeue_cons s m q Hq);
    unfold meta_setitem; simpl; rewrite Hu; simpl;
    unfold on_next; simpl;
    unfold generate_tail, mark_first_chunk, reset_on_last_text, meta_setitem;
    rewrite (bool_decide_eq_false_2 _ Hne); cbn;
    destruct (first_chunk_generated s); cbn;
    destruct (last_text_sent s); cbn;
    try reflexivity;
    (split; [reflexivity | eexists; split; reflexivity]).
Qed.

(** X6.  Records leave the Correlation Queue in the order they were pushed,
    one per received event, not one per unit: [n] audio frames that arrive
    while the queue holds at least [n] records are emitted under the first
    [n] records of the queue, in order, and these are removed from it.  So
    when two units are queued, the second frame of the first unit is emitted
    under the second unit's record. *)
Theorem results_follow_queue_order (audios : list string) (s : state) :
  gen s = GIdle → connected s = true → use_mulaw s = true →
  Forall plain_audio audios →
  length audios ≤ length (text_queue s) →
  let s' := run (frames audios) s in
  p_ref <$> emitted s'
    = (p_ref <$> emitted s) ++ take (length audios) (text_queue s)
  ∧ text_queue s' = drop (length audios) (text_queue s)
  ∧ gen s' = GIdle.
Proof.
  revert s. induction audios as [|a audios IH];
    intros s Hg Hc Hu Hall Hlen; simpl.
  { by rewrite app_nil_r, drop_0. }
  apply Forall_cons in Hall as [Ha Hall].
  destruct (text_queue s) as [|m q] eqn:Hq; simpl in Hlen; [lia|].
  destruct (one_frame_takes_one_record a s m q Hg Hc Hu Ha Hq)
    as (Hg' & Hc' & Hu' & Hq' & p & Hp & Href).
  change (run (LRecv (RxJson (Some a) false) :: LNext :: frames audios) s)
    with (run (frames audios) (on_next (on_recv (RxJson (Some a) false) s))).
  destruct (IH _ Hg' Hc' Hu' Hall) as (He & Hqq & Hgg).
  { rewrite Hq'. lia. }
  rewrite Hq' in He, Hqq. rewrite Hp in He.
  split; [|split; [exact Hqq | exact Hgg]].
  rewrite He, fmap_app. simpl. rewrite Href. by rewrite <- app_assoc.
Qed.

(** ** The greeting *)

(** What one transition writes to the connection and does to the handle. *)
Inductive wire_step (s s' : state) : Prop :=
| wire_quiet (new : list event) :
    log s' = log s ++ new →
    (∀ u w f, Sent u w f ∉ new) →
    websocket s' = websocket s ∨ websocket s' = None →
    wire_step s s'
| wire_text (u : tid) (w : ws) (f : frame) :
    log s' = log s ++ [Sent (Some u) w f] →
    websocket s = Some w → websocket s' = Some w →
    wire_step s s'
| wire_greeting (w : ws) :
    log s' = log s ++ [Sent None w FBos] →
    websocket s' = Some w →
    wire_step s s'.

Lemma wire_quiet_same (s s' : state) :
  log s' = log s → websocket s' = websocket s ∨ websocket s' = None →
  wire_step s s'.
Proof.
  intros Hl Hw. apply (wire_quiet s s' []); [by rewrite app_nil_r| |done].
  intros u w f Hin. by apply elem_of_nil in Hin.
Qed.

Lemma wire_step_ws_send (u : tid) (f : frame) (ok : bool) (pc : sender_pc)
    (s : state) :
  wire_step s (set_task_pc u pc
                 match ws_send (Some u) f ok s with inr s' => s' | inl _ => s end).
Proof.
  unfold ws_send.
  destruct (websocket s) as [w|] eqn:Hw; [destruct (is_closed w s), ok|];
    try (apply wire_quiet_same; [reflexivity | by left]).
  by apply (wire_text s _ u w f).
Qed.

Lemma wire_step_sender_step (u : tid) (ok : bool) (s : state) :
  wire_step s (sender_step u ok s).
Proof.
  assert (∀ eos, wire_step s (sender_flush u eos ok s)) as Hflush.
  { intros eos. unfold sender_flush.
    destruct (wire_step_ws_send u FFlush ok SDone
                (if eos then set_last_text_sent true s else s))
      as [new Hl Hn Hw|u' w f Hl Hw Hw'|w Hl Hw].
    - apply (wire_quiet s _ new); [rewrite Hl|done|]; by destruct eos.
    - apply (wire_text s _ u' w f); [rewrite Hl| |done]; by destruct eos.
    - apply (wire_greeting s _ w); [rewrite Hl|done]; by destruct eos. }
  assert (∀ eos rest, wire_step s (sender_loop u eos rest ok s)) as Hloop.
  { intros eos [|c rest]; simpl; [apply Hflush|].
    pose proof (wire_step_ws_send u (FText c) ok (SLoop rest) s) as Hs.
    destruct (ws_send (Some u) (FText c) ok s) as [e|s'];
      [apply wire_quiet_same; [reflexivity | by left] | exact Hs]. }
  unfold sender_step.
  destruct (tasks s !! u) as [t|]; [|apply wire_quiet_same; by try left].
  destruct (t_pc t); try apply Hloop;
    try (apply wire_quiet_same; by try left);
    unfold sender_enter;
    (destruct (connected s);
     [destruct (text_nonempty (t_text t)); [apply Hloop | apply Hflush]
     |apply wire_quiet_same; [reflexivity | by left]]).
Qed.

Lemma wire_step_step (l : label) (s : state) : wire_step s (step l s).
Proof.
  destruct l as [d|meta text|u ok|o| |conn|w| |o]; cbn [step].
  - apply wire_quiet_same; [reflexivity | by left].
  - destruct (allocated meta s); [|apply wire_quiet_same; by try left].
    destruct meta as [m|]; [|apply wire_quiet_same; by try left].
    apply (wire_quiet s _ [Spawned (length (tasks s));
                           Enqueued (length (tasks s)) m]).
    + simpl. by rewrite <- app_assoc.
    + intros u w f Hin.
      repeat (apply elem_of_cons in Hin as [Hin|Hin]; [discriminate|]).
      by apply elem_of_nil in Hin.
    + by left.
  - apply wire_step_sender_step.
  - pose proof (submission_side_on_recv o s) as Hs.
    apply wire_quiet_same; [by injection Hs | left; by injection Hs].
  - pose proof (submission_side_on_next s) as Hs.
    apply wire_quiet_same; [by injection Hs | left; by injection Hs].
  - unfold monitor_connection.
    destruct (connected s); [apply wire_quiet_same; by try left|].
    destruct conn as [w|]; simpl.
    + by apply (wire_greeting s _ w).
    + apply wire_quiet_same; [reflexivity | by right].
  - unfold ws_close. destruct (is_closed w s);
      apply wire_quiet_same; by try left.
  - apply wire_quiet_same; [|by right].
    unfold cleanup, ws_close, cancel_task, set_task_pc.
    repeat case_match; reflexivity.
  - pose proof (submission_side_on_recv_cancelled o s) as Hs.
    apply wire_quiet_same; [by injection Hs | left; by injection Hs].
Qed.

(** Every text or flush message on a connection comes after the greeting
    sent on that connection. *)
Definition greeting_first (lg : list event) : Prop :=
  ∀ i u w f, lg !! i = Some (Sent (Some u) w f) →
    ∃ j, j < i ∧ lg !! j = Some (Sent None w FBos).

Definition greeted (s : state) : Prop :=
  (∀ w, websocket s = Some w → ∃ j, log s !! j = Some (Sent None w FBos))
  ∧ greeting_first (log s).

Lemma greeting_first_app (lg new : list event) :
  greeting_first lg →
  (∀ u w f, Sent (Some u) w f ∈ new →
     ∃ j, lg !! j = Some (Sent None w FBos)) →
  greeting_first (lg ++ new).
Proof.
  intros Hlg Hnew i u w f Hi.
  destruct (decide (i < length lg)) as [Hlt|Hge].
  - rewrite lookup_app_l in Hi by done.
    destruct (Hlg i u w f Hi) as (j & Hj & Hjl).
    exists j. split; [done|]. rewrite lookup_app_l; [done|lia].
  - rewrite lookup_app_r in Hi by lia.
    destruct (Hnew u w f) as (j & Hj).
    { apply list_elem_of_lookup. eauto. }
    exists j. pose proof (lookup_lt_Some _ _ _ Hj).
    split; [lia|]. by rewrite lookup_app_l.
Qed.

Lemma greeted_step (l : label) (s : state) : greeted s → greeted (step l s).
Proof.
  intros [Hws Hlg].
  destruct (wire_step_step l s) as [new Hl Hn Hw|u w f Hl Hw Hw'|w Hl Hw].
  - split.
    + intros w Hw'. destruct Hw as [Hw|Hw]; [|congruence].
      rewrite Hw in Hw'. destruct (Hws w Hw') as [j Hj].
      exists j. rewrite Hl. rewrite lookup_app_l; [done|].
      by apply lookup_lt_Some in Hj.
    + rewrite Hl. apply greeting_first_app; [done|].
      intros u w f Hin. by destruct (Hn (Some u) w f).
  - split.
    + intros w' Hw''. rewrite Hw' in Hw''. simplify_eq.
      destruct (Hws w' Hw) as [j Hj].
      exists j. rewrite Hl. rewrite lookup_app_l; [done|].
      by apply lookup_lt_Some in Hj.
    + rewrite Hl. apply greeting_first_app; [done|].
      intros u' w' f' Hin. apply list_elem_of_singleton in Hin.
      simplify_eq. by apply Hws.
  - split.
    + intros w' Hw'. rewrite Hw in Hw'. simplify_eq.
      exists (length (log s)). rewrite Hl. by rewrite list_lookup_middle.
    + rewrite Hl. apply greeting_first_app; [done|].
      intros u' w' f' Hin. by apply list_elem_of_singleton in Hin.
Qed.

(** X7.  No text reaches a connection before the greeting: in every run from
    a fresh adapter, each chunk or flush message that a [sender] wrote on a
    connection comes after the initial message that [establish_connection]
    sent on that same connection, and the handle the adapter holds is always
    one that has been greeted. *)
Theorem greeting_precedes_every_text (ls : list label) (mulaw : bool)
    (rate : Z) :
  let s := run ls (init mulaw rate) in
  greeting_first (log s)
  ∧ ∀ w, websocket s = Some w → ∃ j, log s !! j = Some (Sent None w FBos).
Proof.
  assert (greeted (run ls (init mulaw rate))) as [Hws Hlg]; [|done].
  induction ls as [|l ls IH] using rev_ind.
  - split; [done|]. by intros i u w f Hi.
  - rewrite run_snoc. by apply greeted_step.
Qed.

(** ** [push] and the caller's dictionary *)

(** X8.  [push] puts the caller's own dictionary on the queue, after writing
    the text into it, and makes a separate copy the active record: the copy
    is a new object, taken before the text was written, so it holds what the
    caller's dictionary held on entry; no other dictionary is touched. *)
Theorem push_queues_the_callers_dictionary (m : loc) (text : option string)
    (s : state) :
  m < next_loc s →
  ∃ s', push (Some m) text s = Return s'
        ∧ text_queue s' = text_queue s ++ [m]
        ∧ meta_info s' = Some (next_loc s)
        ∧ next_loc s ≠ m
        ∧ heap s' (next_loc s) = heap s m
        ∧ heap s' m = <["text" := of_text text]> (heap s m)
        ∧ (∀ l, l ≠ m → l ≠ next_loc s → heap s' l = heap s l)
        ∧ sender_task s' = Some (length (tasks s)).
Proof.
  intros Hm. eexists. split; [reflexivity|]. simpl.
  unfold setitem, Py.heap in *.
  repeat split; try done; try lia.
  - rewrite fn_lookup_insert_ne by lia. by rewrite fn_lookup_insert.
  - by rewrite fn_lookup_insert, fn_lookup_insert_ne by lia.
  - intros l Hl Hl'. by rewrite !fn_lookup_insert_ne by done.
Qed.

(** ** Shutdown and reconnection *)

(** X9.  [cleanup] acts on the handle and on the most recent [sender] only.
    The Correlation Queue, the active record, the dictionaries, the
    first-chunk and last-text flags and the results are left as they are,
    and a [sender] created by an earlier [push] is not cancelled: its task
    is exactly as before. *)
Theorem cleanup_leaves_queue_and_older_senders (s : state) :
  text_queue (cleanup s) = text_queue s
  ∧ meta_info (cleanup s) = meta_info s
  ∧ heap (cleanup s) = heap s
  ∧ first_chunk_generated (cleanup s) = first_chunk_generated s
  ∧ last_text_sent (cleanup s) = last_text_sent s
  ∧ emitted (cleanup s) = emitted s
  ∧ (∀ u, sender_task s ≠ Some u → tasks (cleanup s) !! u = tasks s !! u).
Proof.
  repeat split;
    try (unfold cleanup, ws_close, cancel_task, set_task_pc;
         repeat case_match; reflexivity).
  intros u Hu. unfold cleanup, ws_close, cancel_task, set_task_pc.
  repeat case_match; simpl; try done;
    rewrite list_lookup_alter_ne; congruence.
Qed.

(** X10.  When the handle is absent or closed, one iteration of the
    supervisor installs whatever [establish_connection] returned: the new
    connection, greeted, or [None] when the attempt failed, even if a
    (closed) handle was held before.  After a successful reconnect a further
    iteration changes nothing. *)
Theorem monitor_installs_what_connect_returns (conn : option ws) (s : state) :
  connected s = false →
  websocket (monitor_connection conn s) = conn
  ∧ log (monitor_connection conn s)
    = log s ++ match conn with Some w => [Sent None w FBos] | None => [] end
  ∧ (∀ w conn', conn = Some w → is_closed w s = false →
       monitor_connection conn' (monitor_connection conn s)
       = monitor_connection conn s).
Proof.
  intros Hc. unfold monitor_connection at 1 2. rewrite Hc.
  destruct conn as [w|]; simpl.
  - repeat split; try done. intros w' conn' [= <-] Hcl.
    unfold monitor_connection. rewrite Hc. simpl.
    unfold connected. simpl. unfold is_closed in *. simpl. by rewrite Hcl.
  - by rewrite app_nil_r.
Qed.

(** ** The sentinel *)


(** ** [sender] and the connection *)

Lemma sender_step_disconnected (u : tid) (ok : bool) (s : state) (t : task) :
  connected s = false → tasks s !! u = Some t →
  t_pc t = SNew ∨ t_pc t = SWait →
  sender_step u ok s = set_task_pc u SWait s.
Proof.
  intros Hc Ht Hpc. unfold sender_step, sender_enter. rewrite Ht, Hc.
  by destruct Hpc as [-> | ->].
Qed.

Lemma sender_run_disconnected (u : tid) (waits : list bool) :
  ∀ (s : state) (t : task),
    connected s = false → tasks s !! u = Some t →
    t_pc t = SNew ∨ t_pc t = SWait →
    let s1 := sender_run u waits s in
    log s1 = log s ∧ last_text_sent s1 = last_text_sent s
    ∧ websocket s1 = websocket s ∧ closed s1 = closed s
    ∧ ∃ t1, tasks s1 !! u = Some t1 ∧ t_text t1 = t_text t
            ∧ t_eos t1 = t_eos t ∧ (t_pc t1 = SNew ∨ t_pc t1 = SWait).
Proof.
  induction waits as [|ok waits IH]; intros s t Hc Ht Hpc; simpl.
  { repeat split; try done. by exists t. }
  rewrite (sender_step_disconnected u ok s t Hc Ht Hpc).
  pose proof (tasks_set_task_pc u SWait s t Ht) as Ht'.
  destruct (IH (set_task_pc u SWait s) _ Hc Ht' (or_intror eq_refl))
    as (Hl & Hlt & Hw & Hcl & t1 & Ht1 & Htx & Heos & Hpc1).
  repeat split; try done. by exists t1.
Qed.

(** X12.  A [sender] started while the connection is absent or closed only
    waits: however often it is scheduled it writes nothing, does not mark
    the last text and does not return.  Once the supervisor has installed a
    new open connection, the same task sends its chunks and the flush on
    that connection, after the greeting. *)
Theorem sender_waits_then_sends (u : tid) (w : ws) (t : task)
    (waits : list bool) (s : state) :
  connected s = false → tasks s !! u = Some t →
  t_pc t = SNew ∨ t_pc t = SWait →
  is_closed w s = false →
  let s1 := sender_run u waits s in
  let chunks := chunks_of (t_text t) in
  let s2 := sender_run u (repeat true (S (length chunks)))
              (monitor_connection (Some w) s1) in
  log s1 = log s
  ∧ last_text_sent s1 = last_text_sent s
  ∧ task_done u s1 = false
  ∧ log s2 = log s ++ [Sent None w FBos]
                   ++ ((λ c, Sent (Some u) w (FText c)) <$> chunks)
                   ++ [Sent (Some u) w FFlush]
  ∧ task_done u s2 = true.
Proof.
  intros Hc Ht Hpc Hcl s1 chunks s2.
  destruct (sender_run_disconnected u waits s t Hc Ht Hpc)
    as (Hl & Hlt & Hw & Hcl1 & t1 & Ht1 & Htx & Heos & Hpc1).
  fold s1 in Hl, Hlt, Hw, Hcl1, Ht1.
  split; [exact Hl|]. split; [exact Hlt|]. split.
  { unfold task_done. rewrite Ht1. by destruct Hpc1 as [-> | ->]. }
  assert (connected s1 = false) as Hc1.
  { unfold connected, is_closed in *. by rewrite Hw, Hcl1. }
  set (s1' := monitor_connection (Some w) s1) in *.
  assert (live s1' w ∧ tasks s1' !! u = Some t1
          ∧ log s1' = log s ++ [Sent None w FBos]) as (Hlive & Ht1' & Hl1').
  { subst s1'. unfold monitor_connection. rewrite Hc1. simpl.
    repeat split; try done.
    - unfold is_closed in *. simpl. by rewrite Hcl1.
    - by rewrite Hl. }
  subst s2 chunks. simpl.
  rewrite (sender_step_enter u true s1' w t1 Hlive Ht1' Hpc1).
  rewrite Htx.
  destruct (sender_loop_all_ok u w (t_eos t1) (chunks_of (t_text t)) s1' t1
              Hlive Ht1' eq_refl) as [Hlog Hdone].
  split; [|exact Hdone].
  rewrite Hlog, Hl1'. by rewrite <- app_assoc.
Qed.

(** The flag after the sends of [rest] all succeed; [okf] is the answer to
    the flush. *)
Lemma last_text_sent_loop_all_ok (u : tid) (w : ws) (eos okf : bool)
    (rest : list string) :
  ∀ (s : state) (t : task) (ok : bool) (oks : list bool),
    live s w → tasks s !! u = Some t → t_eos t = eos →
    repeat true (length rest) ++ [okf] = ok :: oks →
    last_text_sent (sender_run u oks (sender_loop u eos rest ok s))
    = eos || last_text_sent s.
Proof.
  induction rest as [|c rest IH]; intros s t ok oks Hl Ht He Hoks;
    simpl in Hoks; simplify_eq; simpl.
  - unfold sender_flush.
    assert (live (if t_eos t then set_last_text_sent true s else s) w) as Hl'.
    { by destruct (t_eos t). }
    destruct (ws_send_live (Some u) FFlush _ w Hl') as [Hyes Hno].
    destruct ok; rewrite ?Hyes, ?Hno; by destruct (t_eos t).
  - destruct (ws_send_live (Some u) (FText c) s w Hl) as [-> _].
    set (s1 := set_task_pc u (SLoop rest) (record (Sent (Some u) w (FText c)) s)).
    assert (tasks s1 !! u = Some (Task (t_text t) (t_eos t) (SLoop rest))) as Ht1.
    { by apply tasks_set_task_pc. }
    destruct (repeat true (length rest) ++ [okf]) as [|ok' oks'] eqn:Hr.
    { by destruct rest. }
    simpl. rewrite (sender_step_loop u ok' s1 _ rest Ht1 eq_refl). simpl.
    by rewrite (IH s1 _ ok' oks' Hl Ht1 eq_refl eq_refl).
Qed.

(** The flag when the send of chunk number [k] fails. *)
Lemma last_text_sent_loop_fails (u : tid) (w : ws) (eos : bool)
    (rest : list string) :
  ∀ (k : nat) (s : state) (t : task) (ok : bool) (oks : list bool),
    k < length rest →
    live s w → tasks s !! u = Some t → t_eos t = eos →
    repeat true k ++ [false] = ok :: oks →
    last_text_sent (sender_run u oks (sender_loop u eos rest ok s))
    = last_text_sent s.
Proof.
  induction rest as [|c rest IH]; intros k s t ok oks Hk Hl Ht He Hoks;
    simpl in Hk; [lia|].
  destruct k as [|k]; simpl in Hoks; simplify_eq; simpl.
  - by destruct (ws_send_live (Some u) (FText c) s w Hl) as [_ ->].
  - destruct (ws_send_live (Some u) (FText c) s w Hl) as [-> _].
    set (s1 := set_task_pc u (SLoop rest) (record (Sent (Some u) w (FText c)) s)).
    assert (tasks s1 !! u = Some (Task (t_text t) (t_eos t) (SLoop rest))) as Ht1.
    { by apply tasks_set_task_pc. }
    destruct (repeat true k ++ [false]) as [|ok' oks'] eqn:Hr.
    { by destruct k. }
    simpl. rewrite (sender_step_loop u ok' s1 _ rest Ht1 eq_refl). simpl.
    by rewrite (IH k s1 _ ok' oks' ltac:(lia) Hl Ht1 eq_refl Hr).
Qed.

(** X13.  The end of the upstream input is remembered exactly when all the
    chunks went out: run on a live connection, a [sender] whose chunk sends
    all succeed leaves [last_text_sent] true if its unit was marked
    [end_of_llm_stream] (whether or not the flush itself is accepted) and
    unchanged otherwise; a [sender] that returns on a failed chunk leaves
    the flag unchanged even for a marked unit. *)
Theorem last_text_sent_needs_all_chunks (u : tid) (w : ws) (t : task)
    (s : state) :
  websocket s = Some w → is_closed w s = false →
  tasks s !! u = Some t → t_pc t = SNew ∨ t_pc t = SWait →
  let chunks := chunks_of (t_text t) in
  (∀ okf,
     last_text_sent (sender_run u (repeat true (length chunks) ++ [okf]) s)
     = t_eos t || last_text_sent s)
  ∧ (∀ k, k < length chunks →
       last_text_sent (sender_run u (repeat true k ++ [false]) s)
       = last_text_sent s).
Proof.
  intros Hw Hc Ht Hpc chunks.
  assert (live s w) as Hl by done.
  split.
  - intros okf.
    destruct (repeat true (length chunks) ++ [okf]) as [|ok oks] eqn:Hr.
    { by destruct chunks. }
    simpl. rewrite (sender_step_enter u ok s w t Hl Ht Hpc).
    by apply (last_text_sent_loop_all_ok u w (t_eos t) okf chunks s t).
  - intros k Hk.
    destruct (repeat true k ++ [false]) as [|ok oks] eqn:Hr.
    { by destruct k. }
    simpl. rewrite (sender_step_enter u ok s w t Hl Ht Hpc).
    by apply (last_text_sent_loop_fails u w (t_eos t) chunks k s t).
Qed.

(** ** What a result holds *)

(** X21.  The result emitted for an event is tagged and filled according to
    the output mode alone: with mu-law output its [format] is "mulaw" and
    its payload is the received chunk, byte for byte; otherwise its [format]
    is "wav" and its payload is the chunk converted to wav and then
    resampled to the configured rate.  The metadata shown is the record as
    it stands at that moment. *)
Theorem result_format_and_payload (message : bytes) (s s' : state)
    (p : packet) :
  generate_head message s = Yield p s' →
  p_meta p !! "format"
    = Some (VStr (if use_mulaw s then "mulaw" else "wav"))
  ∧ p_meta p = heap s' (p_ref p)
  ∧ (use_mulaw s = true → p_data p = message)
  ∧ (use_mulaw s = false →
       ∃ wav, convert_audio_to_wav message = Some wav
              ∧ resample wav (sampling_rate s) true = Some (p_data p)).
Proof.
  assert (∃ s0, dequeue s = inr s0 ∧ use_mulaw s0 = use_mulaw s
                ∧ sampling_rate s0 = sampling_rate s) as (s0 & Hd & Hu & Hr).
  { destruct (text_queue s) as [|m q] eqn:Hq.
    - exists s. by rewrite (dequeue_empty s Hq).
    - eexists. by rewrite (dequeue_cons s m q Hq). }
  unfold generate_head, meta_setitem. rewrite Hd, Hu.
  destruct (use_mulaw s) eqn:Hm;
    destruct (meta_info s0) as [l|] eqn:Hl; try done; simpl.
  - rewrite Hl. intros [= <- <-]. simpl.
    rewrite setitem_lookup. repeat split; try done.
  - destruct (convert_audio_to_wav message) as [wav|]; [|done].
    rewrite Hr.
    destruct (resample wav (sampling_rate s) true) as [audio|] eqn:Ha;
      [|done].
    rewrite Hl. intros [= <- <-]. simpl.
    rewrite setitem_lookup. repeat split; try done. intros _. eauto.
Qed.

(** ** A [push] while [generate] is suspended *)


End WithCollaborators.

(** ** The theorems at concrete inputs *)

Section Witnesses.
Import Samples.

(** The idle adapter after the last text of the conversation was sent. *)
Definition after_last_text : state :=
  set_last_text_sent true idle_with_record.

(** Two units pushed on a connected adapter, nothing received yet. *)
Definition two_units_queued : state :=
  run (C := plain)
    [LMonitor (Some 0); LNewDict unit_a; LNewDict unit_b;
     LPush (Some 0) (Some "Hello"); LPush (Some 1) (Some "world")]
    (init true 16000).

(** One unit pushed before any connection exists. *)
Definition pushed_while_disconnected : state :=
  run (C := plain) [LNewDict unit_a; LPush (Some 0) (Some "hi")]
    (init true 16000).

(** A connected adapter with a fresh [sender] for a unit marked end of
    upstream input. *)
Definition ready_to_send_last : state :=
  run (C := plain)
    [LMonitor (Some 0); LNewDict unit_b; LPush (Some 0) (Some "hi")]
    (init true 16000).

(** The flag survives a whole unit and its three frames. *)
Lemma last_text_sent_is_never_reset_witness :
  last_text_sent after_last_text = true
  ∧ last_text_sent (run (C := plain) three_frames after_last_text) = true.
Proof.
  split; [reflexivity|].
  exact (last_text_sent_is_never_reset (C := plain) three_frames
           after_last_text eq_refl).
Defined.

(** An ordinary chunk resumed after the last text. *)
Lemma first_chunk_reset_at_every_event_witness :
  last_text_sent after_last_text = true
  ∧ meta_info after_last_text = Some 0
  ∧ [x01] ≠ sentinel
  ∧ ∃ s', generate_tail (C := plain) [x01] after_last_text = Return s'
          ∧ first_chunk_generated s' = false.
Proof.
  assert ([x01] ≠ sentinel) as Hne by discriminate.
  split; [reflexivity|]. split; [reflexivity|]. split; [exact Hne|].
  destruct (first_chunk_reset_at_every_event (C := plain) [x01]
              after_last_text 0 eq_refl eq_refl Hne)
    as (s' & Hr & Hf & _).
  exists s'. split; [exact Hr | exact Hf].
Defined.

(** An audio frame is the only thing [receiver] hands over. *)
Lemma frame_without_audio_is_dropped_witness :
  receiver (C := plain) (RxJson (Some "a1") true) idle_with_record
  = RChunk ["a"%byte; "1"%byte] true
  ∧ ∃ a, RxJson (Some "a1") true = RxJson (Some a) true ∧ a ≠ "".
Proof.
  assert (receiver (C := plain) (RxJson (Some "a1") true) idle_with_record
          = RChunk ["a"%byte; "1"%byte] true) as Hr by reflexivity.
  split; [exact Hr|].
  destruct (frame_without_audio_is_dropped (C := plain) true idle_with_record)
    as (_ & _ & Hchunk).
  destruct (Hchunk _ _ _ Hr) as (a & Ho & Ha & _).
  exists a. split; [exact Ho | exact Ha].
Defined.

(** Two frames against two queued units: one record each. *)
Lemma results_follow_queue_order_witness :
  gen two_units_queued = GIdle
  ∧ connected two_units_queued = true
  ∧ use_mulaw two_units_queued = true
  ∧ text_queue two_units_queued = [0; 1]
  ∧ p_ref <$> emitted (run (C := plain) (frames ["a1"; "a2"]) two_units_queued)
    = [0; 1].
Proof.
  assert (gen two_units_queued = GIdle) as Hg by (vm_compute; reflexivity).
  assert (connected two_units_queued = true) as Hc
    by (vm_compute; reflexivity).
  assert (use_mulaw two_units_queued = true) as Hu
    by (vm_compute; reflexivity).
  assert (text_queue two_units_queued = [0; 1]) as Hq
    by (vm_compute; reflexivity).
  assert (emitted two_units_queued = []) as He by (vm_compute; reflexivity).
  assert (Forall (plain_audio (C := plain)) ["a1"; "a2"]) as Hall.
  { repeat constructor; try discriminate;
      eexists; (split; [reflexivity | discriminate]). }
  split; [exact Hg|]. split; [exact Hc|]. split; [exact Hu|].
  split; [exact Hq|].
  destruct (results_follow_queue_order (C := plain) ["a1"; "a2"]
              two_units_queued Hg Hc Hu Hall) as (Hrefs & _).
  { rewrite Hq. simpl. lia. }
  rewrite Hrefs, He, Hq. reflexivity.
Defined.

(** The first unit of the three-frame run was greeted before its text. *)
Lemma greeting_precedes_every_text_witness :
  log (run (C := plain) three_frames (init true 16000)) !! 3
  = Some (Sent (Some 0) 0 (FText "Hello world"))
  ∧ ∃ j, j < 3
         ∧ log (run (C := plain) three_frames (init true 16000)) !! j
           = Some (Sent None 0 FBos).
Proof.
  assert (log (run (C := plain) three_frames (init true 16000)) !! 3
          = Some (Sent (Some 0) 0 (FText "Hello world"))) as H3
    by (vm_compute; reflexivity).
  split; [exact H3|].
  exact (proj1 (greeting_precedes_every_text (C := plain) three_frames true
                  16000) 3 0 0 (FText "Hello world") H3).
Defined.

(** A push of the dictionary at 0 on the idle adapter. *)
Lemma push_queues_the_callers_dictionary_witness :
  0 < next_loc idle_with_record
  ∧ ∃ s', push (Some 0) (Some "hi") idle_with_record = Return s'
          ∧ text_queue s' = [0] ∧ meta_info s' = Some 1.
Proof.
  assert (0 < next_loc idle_with_record) as Hm by (vm_compute; lia).
  split; [exact Hm|].
  destruct (push_queues_the_callers_dictionary 0 (Some "hi") idle_with_record
              Hm) as (s' & Hp & Hq & Hmi & _).
  exists s'. split; [exact Hp|]. split; [exact Hq | exact Hmi].
Defined.

(** With two senders, [cleanup] leaves the older one alone. *)
Lemma cleanup_leaves_queue_and_older_senders_witness :
  sender_task two_units_queued ≠ Some 0
  ∧ tasks (cleanup two_units_queued) !! 0 = tasks two_units_queued !! 0.
Proof.
  assert (sender_task two_units_queued ≠ Some 0) as Hu
    by (vm_compute; discriminate).
  split; [exact Hu|].
  destruct (cleanup_leaves_queue_and_older_senders two_units_queued)
    as (_ & _ & _ & _ & _ & _ & Hold).
  exact (Hold 0 Hu).
Defined.

(** The first iteration of the supervisor on a fresh adapter. *)
Lemma monitor_installs_what_connect_returns_witness :
  connected (init true 16000) = false
  ∧ websocket (monitor_connection (Some 3) (init true 16000)) = Some 3.
Proof.
  split; [reflexivity|].
  exact (proj1 (monitor_installs_what_connect_returns (Some 3)
                  (init true 16000) eq_refl)).
Defined.


(** A unit pushed before the first connection. *)
Lemma sender_waits_then_sends_witness :
  connected pushed_while_disconnected = false
  ∧ tasks pushed_while_disconnected !! 0 = Some (Task (Some "hi") false SNew)
  ∧ is_closed 7 pushed_while_disconnected = false
  ∧ log (sender_run (C := plain) 0 [true; false] pushed_while_disconnected)
    = log pushed_while_disconnected
  ∧ task_done 0
      (sender_run (C := plain) 0 [true; false] pushed_while_disconnected)
    = false.
Proof.
  assert (connected pushed_while_disconnected = false) as Hc
    by (vm_compute; reflexivity).
  assert (tasks pushed_while_disconnected !! 0
          = Some (Task (Some "hi") false SNew)) as Ht
    by (vm_compute; reflexivity).
  assert (is_closed 7 pushed_while_disconnected = false) as Hcl
    by (vm_compute; reflexivity).
  split; [exact Hc|]. split; [exact Ht|]. split; [exact Hcl|].
  destruct (sender_waits_then_sends (C := plain) 0 7 _ [true; false]
              pushed_while_disconnected Hc Ht (or_introl eq_refl) Hcl)
    as (Hl & _ & Hd & _).
  split; [exact Hl | exact Hd].
Defined.

(** A marked unit whose only chunk is accepted and whose flush is refused. *)
Lemma last_text_sent_needs_all_chunks_witness :
  websocket ready_to_send_last = Some 0
  ∧ is_closed 0 ready_to_send_last = false
  ∧ tasks ready_to_send_last !! 0 = Some (Task (Some "hi") true SNew)
  ∧ last_text_sent (sender_run (C := plain) 0 [true; false] ready_to_send_last)
    = true.
Proof.
  assert (websocket ready_to_send_last = Some 0) as Hw
    by (vm_compute; reflexivity).
  assert (is_closed 0 ready_to_send_last = false) as Hc
    by (vm_compute; reflexivity).
  assert (tasks ready_to_send_last !! 0 = Some (Task (Some "hi") true SNew))
    as Ht by (vm_compute; reflexivity).
  split; [exact Hw|]. split; [exact Hc|]. split; [exact Ht|].
  exact (proj1 (last_text_sent_needs_all_chunks (C := plain) 0 0 _
                  ready_to_send_last Hw Hc Ht (or_introl eq_refl)) false).
Defined.

(** The sentinel on the idle adapter, as a mu-law result. *)
Lemma result_format_and_payload_witness :
  generate_head (C := plain) sentinel idle_with_record
  = Yield (create_ws_data_packet sentinel 0
             (set_heap (setitem 0 "format" (VStr "mulaw")
                          (heap idle_with_record)) idle_with_record))
      (set_heap (setitem 0 "format" (VStr "mulaw") (heap idle_with_record))
         idle_with_record)
  ∧ use_mulaw idle_with_record = true
  ∧ p_data (create_ws_data_packet sentinel 0
              (set_heap (setitem 0 "format" (VStr "mulaw")
                           (heap idle_with_record)) idle_with_record))
    = sentinel.
Proof.
  assert (generate_head (C := plain) sentinel idle_with_record
          = Yield (create_ws_data_packet sentinel 0
                     (set_heap (setitem 0 "format" (VStr "mulaw")
                                  (heap idle_with_record)) idle_with_record))
              (set_heap (setitem 0 "format" (VStr "mulaw")
                           (heap idle_with_record)) idle_with_record)) as Hy
    by reflexivity.
  split; [exact Hy|]. split; [reflexivity|].
  destruct (result_format_and_payload (C := plain) sentinel idle_with_record
              _ _ Hy) as (_ & _ & Hd & _).
  exact (Hd eq_refl).
Defined.


End Witnesses.

End ElevenlabsMore.

(* ===================================================================== *)
(** * More of AzureTranscriber                                            *)
(* ===================================================================== *)

Module AzureMore.
Import Py Azure AzureFacts.

(** X14.  The audio format given to the recognizer is consistent for every
    provider name: it is 8-bit mu-law exactly for "twilio" and 16-bit PCM
    otherwise, 16 kHz exactly for "web_based_call" and 8 kHz otherwise,
    always mono, and the recognition language is always "en-IN"; the
    [language] and [encoding] arguments of the constructor have no effect. *)
Theorem audio_format_by_provider (provider language enc : string) :
  let c := AzureConfig.configure provider language enc in
  let f := AzureConfig.audio_format c in
  (AzureConfig.wave_stream_format f = AzureConfig.MULAW ↔ provider = "twilio")
  ∧ (AzureConfig.format_bits_per_sample f = 8%Z ↔ provider = "twilio")
  ∧ (provider ≠ "twilio" →
       AzureConfig.format_bits_per_sample f = 16%Z
       ∧ AzureConfig.wave_stream_format f = AzureConfig.PCM
       ∧ AzureConfig.compressed_stream_format f = None)
  ∧ (AzureConfig.samples_per_second f = 16000%Z ↔ provider = "web_based_call")
  ∧ (provider ≠ "web_based_call" → AzureConfig.samples_per_second f = 8000%Z)
  ∧ AzureConfig.format_channels f = 1%Z
  ∧ AzureConfig.recognition_language c = "en-IN"
  ∧ c = AzureConfig.configure provider "" "".
Proof.
  unfold AzureConfig.configure, AzureConfig.audio_format, AzureConfig.telephony.
  destruct (String.eqb_spec provider "twilio") as [->|Ht].
  { simpl. repeat split; try done. }
  destruct (String.eqb_spec provider "exotel") as [->|He].
  { simpl. repeat split; try done. }
  destruct (String.eqb_spec provider "plivo") as [->|Hp].
  { simpl. repeat split; try done. }
  destruct (String.eqb_spec provider "web_based_call") as [->|Hw];
    simpl; repeat split; try done.
Qed.

Section WithRequestIds.
Variable request_id : nat → string.

Abbreviation step := (Azure.step request_id).
Abbreviation run := (Azure.run request_id).

(** ** Forwarding audio *)

(** [ws_data_packet.get('data')] when it is truthy. *)
Definition payload_of (p : ws_data_packet) : option bytes :=
  match pk_data p with
  | Some (b :: data) => Some (b :: data)
  | _ => None
  end.

(** A packet with metadata that exists and is not marked end of stream. *)
Definition ordinary (s : state) (p : ws_data_packet) : Prop :=
  ∃ m, pk_meta p = Some m ∧ m < next_loc s
       ∧ has_True (heap s m) "eos" = false.

(** What forwarding keeps: the loop runs, the stream is there, and the
    [eos] entries of the dictionaries are as before. *)
Definition forwarding (s s' : state) : Prop :=
  loop s' = Consuming ∧ push_stream s' = true ∧ next_loc s' = next_loc s
  ∧ ∀ m, heap s' m !! "eos" = heap s m !! "eos".

Lemma ordinary_forwarding (s s' : state) (p : ws_data_packet) :
  forwarding s s' → ordinary s p → ordinary s' p.
Proof.
  intros (_ & _ & Hn & Hh) (m & Hm & Hlt & He).
  exists m. split; [done|]. split; [lia|].
  unfold has_True in *. by rewrite Hh.
Qed.

Lemma note_first_packet_keeps (p : ws_data_packet) (s : state) (m : loc) :
  pk_meta p = Some m →
  ∃ s1, note_first_packet request_id p s = Return () s1
        ∧ written s1 = written s ∧ loop s1 = loop s
        ∧ push_stream s1 = push_stream s ∧ recognizer s1 = recognizer s
        ∧ next_loc s1 = next_loc s ∧ output s1 = output s
        ∧ ∀ l k, k ≠ "request_id" → heap s1 l !! k = heap s l !! k.
Proof.
  intros Hm. unfold note_first_packet.
  destruct (audio_submitted s).
  - exists s. by repeat split.
  - simpl. rewrite Hm. eexists. split; [reflexivity|]. simpl.
    repeat split. intros l k Hk. unfold setitem, Py.heap in *.
    destruct (decide (m = l)) as [->|Hne].
    + rewrite fn_lookup_insert. by rewrite lookup_insert_ne.
    + by rewrite fn_lookup_insert_ne.
Qed.

Lemma forward_one (o : sdk) (p : ws_data_packet) (s : state) :
  write_ok o = true → loop s = Consuming → push_stream s = true →
  ordinary s p →
  let s' := step (LPacket o p) s in
  written s' = written s ++ option_list (payload_of p)
  ∧ output s' = output s
  ∧ forwarding s s'.
Proof.
  intros Hw Hl Hp (m & Hm & Hlt & He). simpl. rewrite Hl.
  unfold allocated. rewrite Hm, bool_decide_eq_true_2 by done.
  unfold send_audio_to_transcriber.
  destruct (note_first_packet_keeps p s m Hm)
    as (s1 & -> & Hw1 & Hl1 & Hp1 & Hr1 & Hn1 & Ho1 & Hh1).
  unfold _check_and_process_end_of_stream. rewrite Hm.
  unfold has_True in *. rewrite Hh1 by done.
  destruct (heap s m !! "eos") as [v|] eqn:Hv; rewrite ?He;
    unfold forward_audio, payload_of, forwarding;
    (destruct (pk_data p) as [[|b data]|]; simpl;
     rewrite ?Hp1, ?Hp, ?Hw; simpl;
     rewrite ?app_nil_r; repeat split; try congruence;
     try (by rewrite Hw1); intros l; by apply Hh1).
Qed.

(** X15.  Audio is forwarded in order and nothing else happens to it: when
    the loop is running, the push stream exists and writes succeed, a
    sequence of packets that have metadata not marked end of stream (an
    [eos] entry that is absent or is anything but the boolean [True], such
    as [1] or ["true"], does not mark it) leaves on the recognizer's stream
    exactly their non-empty payloads, in the order of arrival; packets with
    no or empty data are skipped, the loop keeps running and nothing is put
    on the output queue. *)
Theorem audio_forwarded_in_order (o : sdk) (ps : list ws_data_packet)
    (s : state) :
  write_ok o = true → loop s = Consuming → push_stream s = true →
  Forall (ordinary s) ps →
  let s' := run (LPacket o <$> ps) s in
  written s' = written s ++ omap payload_of ps
  ∧ loop s' = Consuming
  ∧ output s' = output s.
Proof.
  intros Hw. revert s. induction ps as [|p ps IH]; intros s Hl Hp Hall.
  { simpl. by rewrite app_nil_r. }
  apply Forall_cons in Hall as [Hord Hall].
  destruct (forward_one o p s Hw Hl Hp Hord) as (Hwr & Hout & Hf).
  destruct Hf as (Hl' & Hp' & Hn' & Hh').
  destruct (IH (step (LPacket o p) s) Hl' Hp') as (Hwr' & Hl'' & Hout').
  { eapply Forall_impl; [exact Hall|].
    intros p'. by apply ordinary_forwarding. }
  change (run (LPacket o <$> p :: ps) s)
    with (run (LPacket o <$> ps) (step (LPacket o p) s)).
  split; [|split; [exact Hl''| congruence]].
  rewrite Hwr', Hwr. simpl.
  destruct (payload_of p); simpl; by rewrite <- app_assoc.
Qed.

(** ** Packets that end the loop *)

(** X16.  A packet without metadata ends the loop for good and silently:
    the exception is caught outside the loop, nothing is written for the
    packet, and [cleanup] is not run, so the stream and the recognizer stay
    as they are.  If it is the first packet, the request id is generated all
    the same, while the adapter's metadata stays [None]. *)
Theorem packet_without_metadata_stops_loop (o : sdk) (p : ws_data_packet)
    (s : state) :
  pk_meta p = None →
  let s' := send_audio_to_transcriber request_id o p s in
  loop s' = Stopped (Some TypeError)
  ∧ written s' = written s
  ∧ push_stream s' = push_stream s ∧ recognizer s' = recognizer s
  ∧ listening s' = listening s
  ∧ (∀ o' p', step (LPacket o' p') s' = s')
  ∧ (audio_submitted s = false →
       audio_submitted s' = true ∧ meta_info s' = None
       ∧ ids_generated s' = S (ids_generated s)
       ∧ current_request_id s' = Some (request_id (ids_generated s))).
Proof.
  intros Hm s'. subst s'.
  unfold send_audio_to_transcriber, note_first_packet,
    _check_and_process_end_of_stream.
  destruct (audio_submitted s) eqn:Ha; simpl; rewrite Hm; simpl;
    repeat split; try done.
Qed.

(** X17.  [run] starts the loop whether or not [initialize_connection]
    succeeded.  When the push stream was never created, a packet with a
    non-empty payload ends the loop (the write on [None] raises and is
    caught outside the loop) and its audio is lost; a packet without payload
    is passed over and the loop goes on. *)
Theorem missing_stream_stops_loop (o : sdk) (p : ws_data_packet) (s : state)
    (m : loc) :
  push_stream s = false →
  pk_meta p = Some m → has_True (heap s m) "eos" = false →
  let s' := send_audio_to_transcriber request_id o p s in
  (∀ i q, loop (run_adapter i q) = Consuming)
  ∧ push_stream (run_adapter InitNoStream s) = false
  ∧ written s' = written s
  ∧ (∀ d, payload_of p = Some d → loop s' = Stopped (Some AttributeError))
  ∧ (payload_of p = None → loop s' = loop s).
Proof.
  intros Hp Hm He s'.
  split; [by intros [] q|]. split; [done|].
  subst s'. unfold send_audio_to_transcriber.
  destruct (note_first_packet_keeps p s m Hm)
    as (s1 & -> & Hw1 & Hl1 & Hp1 & Hr1 & Hn1 & Ho1 & Hh1).
  unfold _check_and_process_end_of_stream. rewrite Hm.
  unfold has_True in *. rewrite Hh1 by done.
  destruct (heap s m !! "eos") as [v|] eqn:Hv; rewrite ?He;
    unfold forward_audio, payload_of;
    (destruct (pk_data p) as [[|b data]|]; simpl; rewrite ?Hp1, ?Hp; simpl;
     repeat split; try done; try congruence).
Qed.

(** ** Releasing the SDK objects *)

Lemma cleanup_released (o : sdk) (s : state) :
  push_stream s = false → recognizer s = false → cleanup o s = s.
Proof.
  intros Hp Hr. unfold cleanup. rewrite Hp. simpl. rewrite Hr.
  destruct s; simpl in *; by subst.
Qed.

(** X18.  [cleanup] of the transcriber: when closing the stream does not
    raise (or there is no stream), both handles are cleared, the recognizer
    handle even if stopping it raised, and a further [cleanup] changes
    nothing whatever the SDK answers; nothing else of the state (metadata,
    request id, results, written audio) is touched.  When closing the
    stream raises, the exception is swallowed and [cleanup] has released
    nothing: the recognizer is neither stopped nor cleared. *)
Theorem transcriber_cleanup_behaviour (o : sdk) (s : state) :
  (close_ok o = true ∨ push_stream s = false →
     push_stream (cleanup o s) = false ∧ recognizer (cleanup o s) = false
     ∧ ∀ o', cleanup o' (cleanup o s) = cleanup o s)
  ∧ (push_stream s = true → close_ok o = false → cleanup o s = s)
  ∧ (recognizer s = true → stop_ok o = false →
       listening (cleanup o s) = listening s)
  ∧ core (cleanup o s) = core s
  ∧ written (cleanup o s) = written s
  ∧ loop (cleanup o s) = loop s.
Proof.
  split; [|split; [|split; [|split; [|split]]]].
  - intros Hc. destruct (cleanup_releases o s Hc) as [Hp Hr].
    split; [exact Hp|]. split; [exact Hr|].
    intros o'. by apply cleanup_released.
  - intros Hp Hc. unfold cleanup. by rewrite Hp, Hc.
  - intros Hr Hs. unfold cleanup.
    destruct (push_stream s && negb (close_ok o)); [done|].
    simpl. rewrite Hr, Hs. done.
  - apply core_cleanup.
  - apply written_cleanup.
  - apply loop_cleanup.
Qed.

(** X19.  [toggle_connection] stops the adapter: [connection_on] is false,
    the loop no longer takes packets, nothing is written or emitted by the
    call itself, and the SDK objects are released as by [cleanup]; calling
    it again (with a stream that closes) changes nothing more. *)
Theorem toggle_connection_stops_adapter (o : sdk) (s : state) :
  let s' := toggle_connection o s in
  connection_on s' = false
  ∧ loop s' ≠ Consuming
  ∧ written s' = written s ∧ output s' = output s
  ∧ (∀ o' p, step (LPacket o' p) s' = s')
  ∧ (close_ok o = true ∨ push_stream s = false →
       push_stream s' = false ∧ recognizer s' = false
       ∧ ∀ o', toggle_connection o' s' = s').
Proof.
  intros s'.
  assert (loop s' ≠ Consuming) as Hl.
  { subst s'. unfold toggle_connection. rewrite loop_cleanup. simpl.
    destruct (loop s) eqn:E; simpl; by rewrite ?E. }
  assert (connection_on s' = false) as Hon.
  { subst s'. unfold toggle_connection, cleanup.
    repeat case_match; reflexivity. }
  split; [exact Hon|]. split; [exact Hl|]. split; [|split; [|split]].
  - subst s'. unfold toggle_connection. rewrite written_cleanup. simpl.
    by destruct (loop s).
  - subst s'. apply output_core, core_toggle_connection.
  - intros o' p. simpl. by destruct (loop s').
  - intros Hc.
    assert (push_stream s' = false ∧ recognizer s' = false) as [Hp Hr].
    { subst s'. unfold toggle_connection. apply cleanup_releases.
      destruct Hc as [Hc|Hc]; [by left|right]. simpl. by destruct (loop s). }
    split; [exact Hp|]. split; [exact Hr|].
    intros o'. unfold toggle_connection.
    rewrite cleanup_released.
    + destruct s' as [a mi cr ps rc con h nl lp ig wr li out].
      simpl in *. subst. by destruct lp.
    + simpl. by destruct (loop s').
    + simpl. by destruct (loop s').
Qed.

(** ** The output queue *)

(** What a callback of the recognizer puts on the output queue. *)
Definition result_payload (ev : sdk_event) : option payload :=
  match ev with
  | Recognizing text => Some (Interim text)
  | Recognized text => Some (Transcript text)
  | SessionStopped => Some ConnectionClosedNotice
  | Canceled | SessionStarted => None
  end.

Lemma handler_output (ev : sdk_event) (s : state) :
  output (handler ev s)
  = output s ++ ((λ d, Result d (meta_info s) (heap s <$> meta_info s))
                   <$> option_list (result_payload ev))
  ∧ meta_info (handler ev s) = meta_info s ∧ heap (handler ev s) = heap s
  ∧ written (handler ev s) = written s ∧ loop (handler ev s) = loop s.
Proof. destruct ev; simpl; by rewrite ?app_nil_r. Qed.

(** X20.  The callbacks fill the output queue in the order they come:
    interim and final transcripts and the session-stopped notice each add
    one result, paired with the adapter's metadata as it is at that moment;
    cancellation and session-started callbacks add nothing.  The callbacks
    write no audio and do not affect the loop. *)
Theorem results_queued_in_callback_order (evs : list sdk_event) (s : state) :
  let s' := run (LEvent <$> evs) s in
  output s'
  = output s ++ ((λ d, Result d (meta_info s) (heap s <$> meta_info s))
                   <$> omap result_payload evs)
  ∧ length (output s') ≤ length (output s) + length evs
  ∧ written s' = written s ∧ loop s' = loop s.
Proof.
  revert s. induction evs as [|ev evs IH]; intros s.
  { simpl. rewrite app_nil_r. repeat split. lia. }
  change (run (LEvent <$> ev :: evs) s)
    with (run (LEvent <$> evs) (handler ev s)).
  destruct (handler_output ev s) as (Ho & Hm & Hh & Hw & Hl).
  destruct (IH (handler ev s)) as (Ho' & Hlen & Hw' & Hl').
  rewrite Hm, Hh in Ho'.
  split; [|split; [|split; congruence]].
  - rewrite Ho', Ho. simpl.
    destruct (result_payload ev); simpl; by rewrite <- app_assoc.
  - rewrite Ho in Hlen. rewrite length_app, length_fmap in Hlen.
    destruct (result_payload ev); simpl in *; lia.
Qed.

End WithRequestIds.

(** ** The theorems at concrete inputs *)

(** Metadata whose [eos] entry is the number 1, not the boolean. *)
Definition numeric_eos_meta : dict := <["eos" := VInt 1]> plain_meta.

(** A started adapter whose packets refer to [numeric_eos_meta]. *)
Definition listening_adapter : state :=
  Azure.run sample_id (started numeric_eos_meta) init.

(** An adapter that was run although no push stream could be created. *)
Definition adapter_without_stream : state :=
  Azure.run sample_id [LNewDict plain_meta; LRun InitNoStream] init.

Definition silent_packet : ws_data_packet := WsDataPacket (Some 0) None.

Definition packet_without_metadata : ws_data_packet :=
  WsDataPacket None (Some [x01]).

(** A provider other than twilio. *)
Lemma audio_format_by_provider_witness :
  "plivo" ≠ "twilio"
  ∧ AzureConfig.format_bits_per_sample
      (AzureConfig.audio_format (AzureConfig.configure "plivo" "en-US" "mulaw"))
    = 16%Z.
Proof.
  assert ("plivo" ≠ "twilio") as Hne by discriminate.
  split; [exact Hne|].
  destruct (audio_format_by_provider "plivo" "en-US" "mulaw")
    as (_ & _ & Hother & _).
  exact (proj1 (Hother Hne)).
Defined.

(** Audio, silence, audio: two payloads reach the recognizer. *)
Lemma audio_forwarded_in_order_witness :
  loop listening_adapter = Consuming
  ∧ push_stream listening_adapter = true
  ∧ written (Azure.run sample_id
               (LPacket all_ok <$> [audio_packet; silent_packet; audio_packet])
               listening_adapter)
    = [[x01; x02]; [x01; x02]].
Proof.
  assert (loop listening_adapter = Consuming) as Hl
    by (vm_compute; reflexivity).
  assert (push_stream listening_adapter = true) as Hp
    by (vm_compute; reflexivity).
  assert (Forall (ordinary listening_adapter)
            [audio_packet; silent_packet; audio_packet]) as Hall.
  { repeat constructor; exists 0;
      (split; [reflexivity|]);
      (split; [vm_compute; lia | vm_compute; reflexivity]). }
  split; [exact Hl|]. split; [exact Hp|].
  exact (proj1 (audio_forwarded_in_order sample_id all_ok
                  [audio_packet; silent_packet; audio_packet]
                  listening_adapter eq_refl Hl Hp Hall)).
Defined.

(** A first packet that has no metadata. *)
Lemma packet_without_metadata_stops_loop_witness :
  pk_meta packet_without_metadata = None
  ∧ loop (send_audio_to_transcriber sample_id all_ok packet_without_metadata
            listening_adapter)
    = Stopped (Some TypeError).
Proof.
  split; [reflexivity|].
  exact (proj1 (packet_without_metadata_stops_loop sample_id all_ok
                  packet_without_metadata listening_adapter eq_refl)).
Defined.

(** Audio for an adapter that has no push stream. *)
Lemma missing_stream_stops_loop_witness :
  push_stream adapter_without_stream = false
  ∧ pk_meta audio_packet = Some 0
  ∧ has_True (heap adapter_without_stream 0) "eos" = false
  ∧ payload_of audio_packet = Some [x01; x02]
  ∧ loop (send_audio_to_transcriber sample_id all_ok audio_packet
            adapter_without_stream)
    = Stopped (Some AttributeError).
Proof.
  assert (push_stream adapter_without_stream = false) as Hp
    by (vm_compute; reflexivity).
  assert (has_True (heap adapter_without_stream 0) "eos" = false) as He
    by (vm_compute; reflexivity).
  split; [exact Hp|]. split; [reflexivity|]. split; [exact He|].
  split; [reflexivity|].
  destruct (missing_stream_stops_loop sample_id all_ok audio_packet
              adapter_without_stream 0 Hp eq_refl He)
    as (_ & _ & _ & Hstop & _).
  exact (Hstop [x01; x02] eq_refl).
Defined.

(** [cleanup] on a listening adapter whose stream closes. *)
Lemma transcriber_cleanup_behaviour_witness :
  close_ok all_ok = true
  ∧ push_stream (cleanup all_ok listening_adapter) = false
  ∧ recognizer (cleanup all_ok listening_adapter) = false.
Proof.
  split; [reflexivity|].
  destruct (proj1 (transcriber_cleanup_behaviour all_ok listening_adapter)
              (or_introl eq_refl)) as (Hp & Hr & _).
  split; [exact Hp | exact Hr].
Defined.

(** [toggle_connection] on a listening adapter whose stream closes. *)
Lemma toggle_connection_stops_adapter_witness :
  close_ok all_ok = true
  ∧ connection_on (toggle_connection all_ok listening_adapter) = false
  ∧ push_stream (toggle_connection all_ok listening_adapter) = false.
Proof.
  split; [reflexivity|].
  destruct (toggle_connection_stops_adapter sample_id all_ok listening_adapter)
    as (Hon & _ & _ & _ & _ & Hrel).
  split; [exact Hon|].
  exact (proj1 (Hrel (or_introl eq_refl))).
Defined.

End AzureMore.
